(** * The state prefetcher of core/state_prefetcher.go

    A shallow embedding of [statePrefetcher.Prefetch] and the properties of its
    control flow: which collaborators it calls, in which order, and on which
    exit path.  The collaborators that live in other packages (the state
    database, the signer, the transaction executor, the per-block transaction
    file hooks) are the fields of the class [Collaborators]; the run is a pure
    function that threads the objects Go passes by pointer and returns the
    sequence of calls it made. *)

From Stdlib Require Import ZArith NArith List Bool Lia.
Import ListNotations.

Set Implicit Arguments.

(** ** Data model *)

(** A Go [(value, error)] pair. *)
Inductive result (A E : Type) : Type :=
| Ok (a : A)
| Err (e : E).
Arguments Ok {A E} a.
Arguments Err {A E} e.

(** types.Header, the fields the prefetcher reads.  [Number] is a [*big.Int],
    [Time] and [GasLimit] are [uint64], [BaseFee] is a [*big.Int] that is nil
    before London. *)
Record Header : Type := {
  Number : Z;
  Time : N;
  GasLimit : N;
  BaseFee : option Z
}.

(** params.ChainConfig, the fields the prefetcher reads ([DAOForkBlock] is a
    [*big.Int], nil when no DAO fork is configured) and the Byzantium switch
    block that selects the root policy of the fork rule set. *)
Record ChainConfig : Type := {
  DAOForkSupport : bool;
  DAOForkBlock : option Z;
  ByzantiumBlock : option Z
}.

(** The comparison [Cmp] of two [big.Int]: -1, 0 or +1. *)
Definition Cmp (x y : Z) : Z :=
  match Z.compare x y with
  | Lt => -1
  | Eq => 0
  | Gt => 1
  end%Z.

(** The gas pool of a run: the gas that remains, a [uint64]. *)
Definition GasPool : Type := N.

(** [new(GasPool)]: a zeroed pool. *)
Definition new_GasPool : GasPool := 0%N.

(** Modelled from the spec: core/gaspool.go is not among the sources.  The gas
    budget tracker is "a simple depletable counter ... mirroring the
    authoritative block's gas limit"; [AddGas] makes [amount] more gas
    available and returns the pool. *)
Definition AddGas (gp : GasPool) (amount : N) : GasPool := (gp + amount)%N.

(** [*atomic.Bool], owned by the caller and possibly written by another
    goroutine while the run goes on: [b i] is the value a [Load] would observe
    at the boundary before transaction [i] of the block.  The pointer itself
    may be nil, hence [option AtomicBool] in [Prefetch]. *)
Definition AtomicBool : Type := nat -> bool.

(** ** Collaborators

    Everything [Prefetch] calls outside its own file.  The executor
    [applyTransaction] receives [gp], [statedb], [usedGas] and [evm] by
    pointer and may write to each of them: it returns their new contents next
    to its [(receipt, error)] pair.  [NewEVM] stores the [statedb] pointer it
    is given; the state database is one shared object, threaded as one
    value. *)
Class Collaborators : Type := {
  Hash : Type;
  Transaction : Type;
  Message : Type;
  Receipt : Type;
  error : Type;
  StateDB : Type;
  Signer : Type;
  BlockChain : Type;
  Engine : Type;
  BlockContext : Type;
  VMConfig : Type;
  EVM : Type;
  (* core/types *)
  Tx_Hash : Transaction -> Hash;
  Header_Hash : Header -> Hash;
  MakeSigner : ChainConfig -> Z -> N -> Signer;
  (* params *)
  IsByzantium : ChainConfig -> Z -> bool;
  (* core/state, consensus/misc *)
  SetTxContext : StateDB -> Hash -> nat -> StateDB;
  ApplyDAOHardFork : StateDB -> StateDB;
  (* core, core/vm *)
  NewEVMBlockContext : Header -> BlockChain -> BlockContext;
  NewEVM : BlockContext -> ChainConfig -> VMConfig -> EVM;
  TransactionToMessage : Transaction -> Signer -> option Z -> result Message error;
  applyTransaction :
    Message -> ChainConfig -> GasPool -> StateDB -> Z -> Hash -> Transaction ->
    N -> EVM -> result Receipt error * (GasPool * StateDB * N * EVM)
}.

Section Prefetcher.

Context {C : Collaborators}.

(** types.Block: a header and the ordered transactions. *)
Record Block : Type := {
  header : Header;
  transactions : list Transaction
}.

Definition Block_Header (b : Block) : Header := header b.
Definition Block_Hash (b : Block) : Hash := Header_Hash (header b).
Definition Block_Number (b : Block) : Z := Number (header b).
Definition Block_GasLimit (b : Block) : N := GasLimit (header b).
Definition Block_Transactions (b : Block) : list Transaction := transactions b.

Record statePrefetcher : Type := {
  config : ChainConfig;
  bc : BlockChain;
  engine : Engine
}.

Definition newStatePrefetcher (config : ChainConfig) (bc : BlockChain)
    (engine : Engine) : statePrefetcher :=
  {| config := config; bc := bc; engine := engine |}.

(** The objects of one run that are reached through pointers. *)
Record Store : Type := {
  statedb : StateDB;
  gp : GasPool;
  usedGas : N;
  vmenv : EVM
}.

(** ** Calls and traces *)

(** A call that [Prefetch] makes.  The two fallible calls record whether they
    returned an error ([ok = false]); the executor call also records the gas
    pool it was handed and the pool it left behind.  [IntermediateRoot] is
    [statedb.IntermediateRoot], the root computation of the state view. *)
Inductive Call : Type :=
| CallApplyDAOHardFork
| InitTxFile (number : Z)
| CallTransactionToMessage (tx : Transaction) (ok : bool)
| CallSetTxContext (thash : Hash) (ti : nat)
| WriteHash (number : Z) (h : Hash)
| CallApplyTransaction (tx : Transaction) (gp_in gp_out : GasPool) (ok : bool)
| DelTxFile (number : Z)
| ReNameTxFile (number : Z)
| IntermediateRoot.

(** Where in the body of [Prefetch] a call is made. *)
Inductive Site : Type :=
| BeforeLoop
| Iter (i : nat)
| AfterLoop.

Definition Event : Type := (Site * Call)%type.

(** The statement [Prefetch] leaves by: the end of the body, the [return]
    after a failed [TransactionToMessage] or the [return] after a failed
    [applyTransaction], each in iteration [i]. *)
Inductive Exit : Type :=
| Completed
| SenderFailed (i : nat)
| ExecFailed (i : nat).

(** ** The run *)

Section Run.

Variable p : statePrefetcher.
Variable block : Block.
Variable signer : Signer.

(** The loop [for i, tx := range block.Transactions()], from index [i] on. *)
Fixpoint range_Transactions (i : nat) (txs : list Transaction) (st : Store)
    : Exit * Store * list Event :=
  match txs with
  | [] => (Completed, st, [])
  | tx :: rest =>
      let hdr := Block_Header block in
      match TransactionToMessage tx signer (BaseFee hdr) with
      | Err _ =>
          (SenderFailed i, st,
           [(Iter i, CallTransactionToMessage tx false);
            (Iter i, DelTxFile (Number hdr))])
      | Ok msg =>
          let sdb := SetTxContext (statedb st) (Tx_Hash tx) i in
          let '(r, (gp', sdb', used', evm')) :=
            applyTransaction msg (config p) (gp st) sdb (Block_Number block)
              (Block_Hash block) tx (usedGas st) (vmenv st) in
          let st' :=
            {| statedb := sdb'; gp := gp'; usedGas := used'; vmenv := evm' |} in
          match r with
          | Err _ =>
              (ExecFailed i, st',
               [(Iter i, CallTransactionToMessage tx true);
                (Iter i, CallSetTxContext (Tx_Hash tx) i);
                (Iter i, WriteHash (Number hdr) (Tx_Hash tx));
                (Iter i, CallApplyTransaction tx (gp st) gp' false);
                (Iter i, DelTxFile (Number hdr))])
          | Ok _ =>
              let '(e, st'', evs) := range_Transactions (S i) rest st' in
              (e, st'',
               [(Iter i, CallTransactionToMessage tx true);
                (Iter i, CallSetTxContext (Tx_Hash tx) i);
                (Iter i, WriteHash (Number hdr) (Tx_Hash tx));
                (Iter i, CallApplyTransaction tx (gp st) gp' true);
                (Iter i, WriteHash (Number hdr) (Tx_Hash tx))] ++ evs)
          end
      end
  end.

End Run.

(** The condition of the DAO hard-fork mutation. *)
Definition dao_fork_block (cfg : ChainConfig) (number : Z) : bool :=
  DAOForkSupport cfg &&
  match DAOForkBlock cfg with
  | Some b => (Cmp b number =? 0)%Z
  | None => false
  end.

(** [Prefetch]: the exit taken, the objects as the run leaves them and the
    calls made, in order.  The [interrupt] argument is part of the signature
    and no statement of the body mentions it. *)
Definition Prefetch (p : statePrefetcher) (block : Block) (statedb : StateDB)
    (cfg : VMConfig) (interrupt : option AtomicBool)
    : Exit * Store * list Event :=
  let usedGas := 0%N in
  let hdr := Block_Header block in
  let gp := AddGas new_GasPool (Block_GasLimit block) in
  let dao := dao_fork_block (config p) (Block_Number block) in
  let statedb := if dao then ApplyDAOHardFork statedb else statedb in
  let context := NewEVMBlockContext hdr (bc p) in
  let vmenv := NewEVM context (config p) cfg in
  let signer := MakeSigner (config p) (Number hdr) (Time hdr) in
  let nonempty := (0 <? length (Block_Transactions block))%nat in
  let '(exit, st, evs) :=
    range_Transactions p block signer 0 (Block_Transactions block)
      {| statedb := statedb; gp := gp; usedGas := usedGas; vmenv := vmenv |} in
  let prologue :=
    (if dao then [(BeforeLoop, CallApplyDAOHardFork)] else []) ++
    (if nonempty then [(BeforeLoop, InitTxFile (Number hdr))] else []) in
  match exit with
  | Completed =>
      (exit, st,
       prologue ++ evs ++
       (if nonempty then [(AfterLoop, ReNameTxFile (Number hdr))] else []))
  | _ => (exit, st, prologue ++ evs)
  end.

Definition exit_of (r : Exit * Store * list Event) : Exit := fst (fst r).
Definition store_of (r : Exit * Store * list Event) : Store := snd (fst r).
Definition trace_of (r : Exit * Store * list Event) : list Event := snd r.

(** ** Observations on a trace *)

Definition site_eqb (s t : Site) : bool :=
  match s, t with
  | BeforeLoop, BeforeLoop => true
  | Iter i, Iter j => Nat.eqb i j
  | AfterLoop, AfterLoop => true
  | _, _ => false
  end.

(** The calls made at one site, in order. *)
Definition calls_at (s : Site) (tr : list Event) : list Call :=
  map snd (filter (fun ev => site_eqb (fst ev) s) tr).

(** How many calls of a trace satisfy [f]. *)
Definition count_calls (f : Call -> bool) (tr : list Event) : nat :=
  length (filter (fun ev => f (snd ev)) tr).

Definition is_dao (c : Call) : bool :=
  match c with CallApplyDAOHardFork => true | _ => false end.

Definition is_root (c : Call) : bool :=
  match c with IntermediateRoot => true | _ => false end.

Definition is_WriteHash (c : Call) : bool :=
  match c with WriteHash _ _ => true | _ => false end.

(** The begin-run, end-run and abort-run hooks. *)
Definition is_file_hook (c : Call) : bool :=
  match c with
  | InitTxFile _ | DelTxFile _ | ReNameTxFile _ => true
  | _ => false
  end.

Definition is_executed (c : Call) : bool :=
  match c with CallApplyTransaction _ _ _ true => true | _ => false end.

(** The file hooks of a trace, in order. *)
Definition file_hooks (tr : list Event) : list Call :=
  filter is_file_hook (map snd tr).

(** The contexts bound on the state view, in order. *)
Fixpoint bound_contexts (tr : list Event) : list (Hash * nat) :=
  match tr with
  | [] => []
  | (_, CallSetTxContext h i) :: tr' => (h, i) :: bound_contexts tr'
  | _ :: tr' => bound_contexts tr'
  end.

(** The contexts of the transactions of a block, numbered from [i]. *)
Fixpoint block_contexts (i : nat) (txs : list Transaction) : list (Hash * nat) :=
  match txs with
  | [] => []
  | tx :: rest => (Tx_Hash tx, i) :: block_contexts (S i) rest
  end.

(** The gas pool each executor call received and left, in order. *)
Fixpoint gas_handoffs (tr : list Event) : list (GasPool * GasPool) :=
  match tr with
  | [] => []
  | (_, CallApplyTransaction _ gin gout _) :: tr' => (gin, gout) :: gas_handoffs tr'
  | _ :: tr' => gas_handoffs tr'
  end.

(** One pool handed from call to call: each call receives what the call before
    it left, the first one receives [g]. *)
Fixpoint chained (g : GasPool) (l : list (GasPool * GasPool)) : Prop :=
  match l with
  | [] => True
  | (gin, gout) :: l' => gin = g /\ chained gout l'
  end.

(** What is left in the pool after the calls of [l], starting from [g]. *)
Fixpoint pool_after (g : GasPool) (l : list (GasPool * GasPool)) : GasPool :=
  match l with
  | [] => g
  | (_, gout) :: l' => pool_after gout l'
  end.

(** Transaction [k] is presented to the executor. *)
Definition presented (k : nat) (tr : list Event) : Prop :=
  exists tx gin gout ok, In (Iter k, CallApplyTransaction tx gin gout ok) tr.

(** Whether a run that leaves by [e] gets as far as the executor call of
    iteration [k]. *)
Definition reaches_engine (e : Exit) (k : nat) : bool :=
  match e with
  | Completed => true
  | SenderFailed j => Nat.ltb k j
  | ExecFailed j => Nat.leb k j
  end.

(** The cancellation signal is set from the boundary before transaction [k]
    on. *)
Definition set_before (interrupt : option AtomicBool) (k : nat) : Prop :=
  exists b, interrupt = Some b /\ forall j, k <= j -> b j = true.

(** ** The loop as a relation

    [Loop p block signer i txs st e st' evs]: the iterations for [txs],
    numbered from [i] and started in [st], leave by [e] in [st'] after the
    calls [evs].  One constructor per way through the loop body. *)
Inductive Loop (p : statePrefetcher) (block : Block) (signer : Signer)
    : nat -> list Transaction -> Store -> Exit -> Store -> list Event -> Prop :=
| Loop_end i st :
    Loop p block signer i [] st Completed st []
| Loop_sender i tx rest st err :
    TransactionToMessage tx signer (BaseFee (Block_Header block)) = Err err ->
    Loop p block signer i (tx :: rest) st (SenderFailed i) st
      [(Iter i, CallTransactionToMessage tx false);
       (Iter i, DelTxFile (Number (Block_Header block)))]
| Loop_exec i tx rest st msg err gp' sdb' used' evm' :
    TransactionToMessage tx signer (BaseFee (Block_Header block)) = Ok msg ->
    applyTransaction msg (config p) (gp st)
      (SetTxContext (statedb st) (Tx_Hash tx) i) (Block_Number block)
      (Block_Hash block) tx (usedGas st) (vmenv st)
    = (Err err, (gp', sdb', used', evm')) ->
    Loop p block signer i (tx :: rest) st (ExecFailed i)
      {| statedb := sdb'; gp := gp'; usedGas := used'; vmenv := evm' |}
      [(Iter i, CallTransactionToMessage tx true);
       (Iter i, CallSetTxContext (Tx_Hash tx) i);
       (Iter i, WriteHash (Number (Block_Header block)) (Tx_Hash tx));
       (Iter i, CallApplyTransaction tx (gp st) gp' false);
       (Iter i, DelTxFile (Number (Block_Header block)))]
| Loop_next i tx rest st msg rcpt gp' sdb' used' evm' e st'' evs :
    TransactionToMessage tx signer (BaseFee (Block_Header block)) = Ok msg ->
    applyTransaction msg (config p) (gp st)
      (SetTxContext (statedb st) (Tx_Hash tx) i) (Block_Number block)
      (Block_Hash block) tx (usedGas st) (vmenv st)
    = (Ok rcpt, (gp', sdb', used', evm')) ->
    Loop p block signer (S i) rest
      {| statedb := sdb'; gp := gp'; usedGas := used'; vmenv := evm' |}
      e st'' evs ->
    Loop p block signer i (tx :: rest) st e st''
      ([(Iter i, CallTransactionToMessage tx true);
        (Iter i, CallSetTxContext (Tx_Hash tx) i);
        (Iter i, WriteHash (Number (Block_Header block)) (Tx_Hash tx));
        (Iter i, CallApplyTransaction tx (gp st) gp' true);
        (Iter i, WriteHash (Number (Block_Header block)) (Tx_Hash tx))] ++ evs).

(** The pieces of [Prefetch] around the loop. *)
Definition run_signer (p : statePrefetcher) (block : Block) : Signer :=
  MakeSigner (config p) (Number (Block_Header block)) (Time (Block_Header block)).

Definition run_store (p : statePrefetcher) (block : Block) (sdb : StateDB)
    (cfg : VMConfig) : Store :=
  {| statedb :=
       if dao_fork_block (config p) (Block_Number block)
       then ApplyDAOHardFork sdb else sdb;
     gp := AddGas new_GasPool (Block_GasLimit block);
     usedGas := 0%N;
     vmenv := NewEVM (NewEVMBlockContext (Block_Header block) (bc p)) (config p) cfg |}.

Definition prologue (p : statePrefetcher) (block : Block) : list Event :=
  (if dao_fork_block (config p) (Block_Number block)
   then [(BeforeLoop, CallApplyDAOHardFork)] else []) ++
  (if (0 <? length (Block_Transactions block))%nat
   then [(BeforeLoop, InitTxFile (Number (Block_Header block)))] else []).

Definition epilogue (block : Block) (e : Exit) : list Event :=
  match e with
  | Completed =>
      if (0 <? length (Block_Transactions block))%nat
      then [(AfterLoop, ReNameTxFile (Number (Block_Header block)))] else []
  | _ => []
  end.

(** The calls of an iteration that reaches the executor: the sender resolves,
    the context is bound, the hash is recorded, the executor runs, and then
    either the hash is recorded again or the transaction file is dropped. *)
Definition executor_iteration (block : Block) (k : nat) (tx : Transaction)
    (gin gout : GasPool) (ok : bool) : list Event :=
  let n := Number (Block_Header block) in
  [(Iter k, CallTransactionToMessage tx true);
   (Iter k, CallSetTxContext (Tx_Hash tx) k);
   (Iter k, WriteHash n (Tx_Hash tx));
   (Iter k, CallApplyTransaction tx gin gout ok);
   (Iter k, if ok then WriteHash n (Tx_Hash tx) else DelTxFile n)].

(** ** The statements under test, as the specification words them *)

(** P3: once the signal is set before transaction [k], none of the
    transactions from [k] on reaches the executor. *)
Definition cancellation_honoured (p : statePrefetcher) (block : Block)
    (sdb : StateDB) (cfg : VMConfig) (interrupt : option AtomicBool) : Prop :=
  forall k, set_before interrupt k ->
  forall j, k <= j ->
  ~ presented j (trace_of (Prefetch p block sdb cfg interrupt)).

(** P5: before Byzantium one root computation per executed transaction; from
    Byzantium on exactly one, and only when the run completes. *)
Definition root_warming_policy (p : statePrefetcher) (block : Block)
    (sdb : StateDB) (cfg : VMConfig) (interrupt : option AtomicBool) : Prop :=
  let r := Prefetch p block sdb cfg interrupt in
  (IsByzantium (config p) (Block_Number block) = false ->
   count_calls is_root (trace_of r) = count_calls is_executed (trace_of r)) /\
  (IsByzantium (config p) (Block_Number block) = true ->
   count_calls is_root (trace_of r)
   = match exit_of r with Completed => 1 | _ => 0 end).

(** ** How far a run gets

    For a run over [len] transactions that leaves by [e]: how many
    transactions were executed without error, how many had their context
    bound and were handed to the executor, and for how many the sender
    resolution was attempted. *)
Definition executed_upto (e : Exit) (len : nat) : nat :=
  match e with
  | Completed => len
  | SenderFailed k | ExecFailed k => k
  end.

Definition bound_upto (e : Exit) (len : nat) : nat :=
  match e with
  | Completed => len
  | SenderFailed k => k
  | ExecFailed k => S k
  end.

Definition resolved_upto (e : Exit) (len : nat) : nat :=
  match e with
  | Completed => len
  | SenderFailed k | ExecFailed k => S k
  end.

(** The hashes handed to [WriteHash], in order: what ends up in the
    transaction file of the block. *)
Fixpoint recorded_hashes (tr : list Event) : list Hash :=
  match tr with
  | [] => []
  | (_, WriteHash _ h) :: tr' => h :: recorded_hashes tr'
  | _ :: tr' => recorded_hashes tr'
  end.

(** The transactions handed to [TransactionToMessage], in order. *)
Fixpoint resolution_attempts (tr : list Event) : list Transaction :=
  match tr with
  | [] => []
  | (_, CallTransactionToMessage tx _) :: tr' => tx :: resolution_attempts tr'
  | _ :: tr' => resolution_attempts tr'
  end.

(** The transactions handed to [applyTransaction], in order. *)
Fixpoint executor_inputs (tr : list Event) : list Transaction :=
  match tr with
  | [] => []
  | (_, CallApplyTransaction tx _ _ _) :: tr' => tx :: executor_inputs tr'
  | _ :: tr' => executor_inputs tr'
  end.

(** Each hash twice, as a transaction that executes leaves them. *)
Definition twice_hashes (txs : list Transaction) : list Hash :=
  flat_map (fun tx => [Tx_Hash tx; Tx_Hash tx]) txs.

(** The block number a call of the transaction-file hooks carries. *)
Definition file_number (c : Call) : option Z :=
  match c with
  | InitTxFile n | WriteHash n _ | DelTxFile n | ReNameTxFile n => Some n
  | _ => None
  end.

(** A fallible call that returned an error. *)
Definition is_failure (c : Call) : bool :=
  match c with
  | CallTransactionToMessage _ false => true
  | CallApplyTransaction _ _ _ false => true
  | _ => false
  end.

(** The block with the same header and other transactions. *)
Definition with_transactions (b : Block) (txs : list Transaction) : Block :=
  {| header := header b; transactions := txs |}.

End Prefetcher.

(** ** A small chain to run the prefetcher on

    Transactions carry their hash, whether their signature recovers and the
    gas they burn; the executor charges that gas to the pool and fails when
    the pool cannot pay; the state view keeps the context last bound and
    whether the DAO mutation was applied. *)
Module Sample.

Record Tx : Type := {
  tx_hash : Z;
  sig_ok : bool;
  tx_gas : N
}.

Record View : Type := {
  thash : Z;
  txIndex : nat;
  dao_applied : bool
}.

Definition to_message (tx : Tx) (s : unit) (baseFee : option Z)
    : result Tx unit :=
  if sig_ok tx then Ok tx else Err tt.

Definition apply_tx (msg : Tx) (cfg : ChainConfig) (gp : GasPool) (v : View)
    (number : Z) (bh : Z) (tx : Tx) (used : N) (evm : Header)
    : result N unit * (GasPool * View * N * Header) :=
  if (tx_gas msg <=? gp)%N
  then (Ok (used + tx_gas msg)%N, ((gp - tx_gas msg)%N, v, (used + tx_gas msg)%N, evm))
  else (Err tt, (gp, v, used, evm)).

Definition is_byzantium (cfg : ChainConfig) (number : Z) : bool :=
  match ByzantiumBlock cfg with
  | Some b => (b <=? number)%Z
  | None => false
  end.

#[export] Instance chain : Collaborators := {|
  Hash := Z;
  Transaction := Tx;
  Message := Tx;
  Receipt := N;
  error := unit;
  StateDB := View;
  Signer := unit;
  BlockChain := unit;
  Engine := unit;
  BlockContext := Header;
  VMConfig := unit;
  EVM := Header;
  Tx_Hash := tx_hash;
  Header_Hash := Number;
  MakeSigner := fun _ _ _ => tt;
  IsByzantium := is_byzantium;
  SetTxContext := fun v h i =>
    {| thash := h; txIndex := i; dao_applied := dao_applied v |};
  ApplyDAOHardFork := fun v =>
    {| thash := thash v; txIndex := txIndex v; dao_applied := true |};
  NewEVMBlockContext := fun h _ => h;
  NewEVM := fun ctx _ _ => ctx;
  TransactionToMessage := to_message;
  applyTransaction := apply_tx
|}.

(** Mainnet-like fork schedule: DAO fork at 1920000, Byzantium at 4370000. *)
Definition mainnet : ChainConfig :=
  {| DAOForkSupport := true;
     DAOForkBlock := Some 1920000%Z;
     ByzantiumBlock := Some 4370000%Z |}.

Definition prefetcher : statePrefetcher := newStatePrefetcher mainnet tt tt.

Definition header_at (number : Z) : Header :=
  {| Number := number; Time := 1500000000%N; GasLimit := 100000%N;
     BaseFee := None |}.

Definition transfer (h : Z) : Tx :=
  {| tx_hash := h; sig_ok := true; tx_gas := 21000%N |}.

Definition forged (h : Z) : Tx :=
  {| tx_hash := h; sig_ok := false; tx_gas := 21000%N |}.

Definition greedy (h : Z) : Tx :=
  {| tx_hash := h; sig_ok := true; tx_gas := 90000%N |}.

Definition view0 : View := {| thash := 0%Z; txIndex := 0; dao_applied := false |}.

(** Three plain transfers in a Byzantium block. *)
Definition block_ok : Block :=
  {| header := header_at 4370001; transactions := [transfer 11; transfer 12; transfer 13] |}.

(** The second signature does not recover. *)
Definition block_forged : Block :=
  {| header := header_at 4370001; transactions := [transfer 11; forged 12; transfer 13] |}.

(** The second transaction does not fit in what the first left of the pool. *)
Definition block_greedy : Block :=
  {| header := header_at 4370001; transactions := [transfer 11; greedy 12; transfer 13] |}.

(** No transaction, at the DAO fork block and in a Byzantium block. *)
Definition block_dao : Block :=
  {| header := header_at 1920000; transactions := [] |}.

Definition block_empty : Block :=
  {| header := header_at 4370001; transactions := [] |}.

(** A pre-Byzantium block with one transfer. *)
Definition block_frontier : Block :=
  {| header := header_at 1000; transactions := [transfer 11] |}.

(** A signal that was set before the run began and stays set. *)
Definition cancelled : option AtomicBool := Some (fun _ => true).

End Sample.

(** A chain whose state view counts the root computations made on it.  Its
    executor does what the block processor's [applyTransaction] does after a
    message that applied: under rules that predate Byzantium it computes the
    intermediate root of the view, from Byzantium on it does not. *)
Module SampleRoots.

Import Sample.

Record RootView : Type := {
  ctx_hash : Z;
  ctx_index : nat;
  root_count : nat
}.

Definition compute_root (v : RootView) : RootView :=
  {| ctx_hash := ctx_hash v; ctx_index := ctx_index v;
     root_count := S (root_count v) |}.

Definition apply_tx_rooting (msg : Tx) (cfg : ChainConfig) (gp : GasPool)
    (v : RootView) (number : Z) (bh : Z) (tx : Tx) (used : N) (evm : Header)
    : result N unit * (GasPool * RootView * N * Header) :=
  if (tx_gas msg <=? gp)%N
  then (Ok (used + tx_gas msg)%N,
        ((gp - tx_gas msg)%N,
         (if is_byzantium cfg number then v else compute_root v),
         (used + tx_gas msg)%N, evm))
  else (Err tt, (gp, v, used, evm)).

Definition rooting_chain : Collaborators := {|
  Hash := Z;
  Transaction := Tx;
  Message := Tx;
  Receipt := N;
  error := unit;
  StateDB := RootView;
  Signer := unit;
  BlockChain := unit;
  Engine := unit;
  BlockContext := Header;
  VMConfig := unit;
  EVM := Header;
  Tx_Hash := tx_hash;
  Header_Hash := Number;
  MakeSigner := fun _ _ _ => tt;
  IsByzantium := is_byzantium;
  SetTxContext := fun v h i =>
    {| ctx_hash := h; ctx_index := i; root_count := root_count v |};
  ApplyDAOHardFork := fun v => v;
  NewEVMBlockContext := fun h _ => h;
  NewEVM := fun ctx _ _ => ctx;
  TransactionToMessage := to_message;
  applyTransaction := apply_tx_rooting
|}.

Definition rooting_prefetcher : @statePrefetcher rooting_chain :=
  @newStatePrefetcher rooting_chain mainnet tt tt.

Definition root_view0 : RootView :=
  {| ctx_hash := 0%Z; ctx_index := 0; root_count := 0 |}.

(** Before Byzantium: two transfers, then one that the pool cannot pay. *)
Definition rooting_block_frontier : @Block rooting_chain :=
  @Build_Block rooting_chain (header_at 1000)
    [transfer 11; transfer 12; greedy 13].

(** From Byzantium on: three transfers. *)
Definition rooting_block_byzantium : @Block rooting_chain :=
  @Build_Block rooting_chain (header_at 4370001)
    [transfer 11; transfer 12; transfer 13].

End SampleRoots.

(** * Properties *)

Section Properties.

Context {C : Collaborators}.

(** ** The function and the relation agree *)

Lemma range_Transactions_Loop p block signer txs :
  forall i st e st' evs,
    range_Transactions p block signer i txs st = (e, st', evs) ->
    Loop p block signer i txs st e st' evs.
Proof.
  induction txs as [|tx rest IH]; intros i st e st' evs H; cbn in H.
  - inversion H; subst. constructor.
  - destruct (TransactionToMessage tx signer (BaseFee (Block_Header block)))
      as [msg|err] eqn:Hmsg.
    + destruct (applyTransaction msg (config p) (gp st)
                  (SetTxContext (statedb st) (Tx_Hash tx) i) (Block_Number block)
                  (Block_Hash block) tx (usedGas st) (vmenv st))
        as [[rcpt|err] [[[g s] u] v]] eqn:Happ.
      * destruct (range_Transactions p block signer (S i) rest
                    {| statedb := s; gp := g; usedGas := u; vmenv := v |})
          as [[e1 st1] evs1] eqn:Hrec.
        inversion H; subst.
        eapply Loop_next; eauto.
      * inversion H; subst. eapply Loop_exec; eauto.
    + inversion H; subst. eapply Loop_sender; eauto.
Qed.

(** [Prefetch] is its prologue, the loop and its epilogue. *)
Lemma Prefetch_Loop p block sdb cfg interrupt :
  exists e st evs,
    Loop p block (run_signer p block) 0 (Block_Transactions block)
      (run_store p block sdb cfg) e st evs /\
    Prefetch p block sdb cfg interrupt
    = (e, st, prologue p block ++ evs ++ epilogue block e).
Proof.
  unfold Prefetch.
  destruct (range_Transactions p block
              (MakeSigner (config p) (Number (Block_Header block))
                 (Time (Block_Header block))) 0 (Block_Transactions block)
              {| statedb :=
                   if dao_fork_block (config p) (Block_Number block)
                   then ApplyDAOHardFork sdb else sdb;
                 gp := AddGas new_GasPool (Block_GasLimit block);
                 usedGas := 0%N;
                 vmenv := NewEVM (NewEVMBlockContext (Block_Header block) (bc p))
                            (config p) cfg |})
    as [[e st] evs] eqn:Hloop.
  exists e, st, evs. split.
  - apply range_Transactions_Loop. exact Hloop.
  - unfold prologue, epilogue.
    destruct e; rewrite ?app_nil_r; reflexivity.
Qed.

(** ** Counting and filtering over concatenated traces *)

Lemma count_calls_app f (a b : list Event) :
  count_calls f (a ++ b) = count_calls f a + count_calls f b.
Proof.
  unfold count_calls. rewrite filter_app, length_app. reflexivity.
Qed.

Lemma calls_at_app s (a b : list Event) :
  calls_at s (a ++ b) = calls_at s a ++ calls_at s b.
Proof.
  unfold calls_at. rewrite filter_app, map_app. reflexivity.
Qed.

Lemma file_hooks_app (a b : list Event) :
  file_hooks (a ++ b) = file_hooks a ++ file_hooks b.
Proof.
  unfold file_hooks. rewrite map_app, filter_app. reflexivity.
Qed.

Lemma bound_contexts_app (a b : list Event) :
  bound_contexts (a ++ b) = bound_contexts a ++ bound_contexts b.
Proof.
  induction a as [|[s c] a IH]; cbn; [reflexivity|].
  destruct c; cbn; rewrite IH; reflexivity.
Qed.

Lemma gas_handoffs_app (a b : list Event) :
  gas_handoffs (a ++ b) = gas_handoffs a ++ gas_handoffs b.
Proof.
  induction a as [|[s c] a IH]; cbn; [reflexivity|].
  destruct c; cbn; rewrite IH; reflexivity.
Qed.

Lemma site_eqb_eq s t : site_eqb s t = true <-> s = t.
Proof.
  destruct s, t; cbn; try (split; (reflexivity || discriminate)).
  rewrite Nat.eqb_eq. split; [intros ->; reflexivity | intros H; inversion H; reflexivity].
Qed.

Lemma calls_at_In s c (tr : list Event) :
  In c (calls_at s tr) <-> In (s, c) tr.
Proof.
  unfold calls_at. rewrite in_map_iff. split.
  - intros [[s' c'] [Hc Hin]]. cbn in Hc. subst c'.
    apply filter_In in Hin. destruct Hin as [Hin Hs]. cbn in Hs.
    apply site_eqb_eq in Hs. subst s'. exact Hin.
  - intros Hin. exists (s, c). split; [reflexivity|].
    apply filter_In. split; [exact Hin|]. cbn. apply site_eqb_eq. reflexivity.
Qed.

Lemma calls_at_none s (tr : list Event) :
  (forall c, ~ In (s, c) tr) -> calls_at s tr = [].
Proof.
  intros H. destruct (calls_at s tr) as [|c l] eqn:E; [reflexivity|].
  exfalso. apply (H c). apply calls_at_In. rewrite E. left. reflexivity.
Qed.

(** Case analysis on membership in an explicit list of events. *)
Ltac in_cases :=
  repeat match goal with
  | H : In _ (_ ++ _) |- _ => apply in_app_or in H; destruct H as [H|H]
  | H : In _ (_ :: _) |- _ => destruct H as [H|H]
  | H : In _ [] |- _ => destruct H
  | H : (_, _) = (_, _) |- _ => inversion H; subst; clear H
  end.

(** ** Invariants of the loop *)

Section LoopFacts.

Variables (p : statePrefetcher) (block : Block) (signer : Signer).

(** A failing exit names an iteration of the loop. *)
Lemma Loop_exit_range i txs st e st' evs :
  Loop p block signer i txs st e st' evs ->
  match e with
  | Completed => True
  | SenderFailed k | ExecFailed k => i <= k < i + length txs
  end.
Proof.
  induction 1; cbn [length]; try exact I; try lia.
  destruct e; [exact I | lia | lia].
Qed.

(** Every call of the loop is made in an iteration of it, none later than the
    iteration the run leaves by. *)
Lemma Loop_sites i txs st e st' evs :
  Loop p block signer i txs st e st' evs ->
  forall s c, In (s, c) evs ->
  exists j, s = Iter j /\ i <= j < i + length txs /\
    match e with
    | Completed => True
    | SenderFailed k | ExecFailed k => j <= k
    end.
Proof.
  induction 1 as [i st | i tx rest st err Hm
                 | i tx rest st msg err g s u v Hm Ha
                 | i tx rest st msg r g s u v e st'' evs Hm Ha HL IH];
    intros s0 c0 Hin; cbn [length].
  - destruct Hin.
  - in_cases; exists i; repeat split; lia.
  - in_cases; exists i; repeat split; lia.
  - pose proof (Loop_exit_range HL) as Hr.
    apply in_app_or in Hin. destruct Hin as [Hin|Hin].
    + in_cases; exists i; (split; [reflexivity|]); (split; [lia|]);
        destruct e; try exact I; lia.
    + destruct (IH _ _ Hin) as [j [-> [Hj He]]].
      exists j. split; [reflexivity|]. split; [lia|exact He].
Qed.

(** The loop computes no root, applies no fork mutation, and the only file
    hook it calls is the abort hook, once, when it leaves early. *)
Lemma Loop_counts i txs st e st' evs :
  Loop p block signer i txs st e st' evs ->
  count_calls is_root evs = 0 /\
  count_calls is_dao evs = 0 /\
  file_hooks evs
  = match e with
    | Completed => []
    | _ => [DelTxFile (Number (Block_Header block))]
    end.
Proof.
  induction 1 as [i st | i tx rest st err Hm
                 | i tx rest st msg err g s u v Hm Ha
                 | i tx rest st msg r g s u v e st'' evs Hm Ha HL IH];
    try (cbn; repeat split; reflexivity).
  destruct IH as [Hr [Hd Hh]].
  rewrite !count_calls_app, file_hooks_app, Hr, Hd, Hh.
  cbn. repeat split; reflexivity.
Qed.

(** Which transactions reach the executor. *)
Lemma Loop_presented i txs st e st' evs :
  Loop p block signer i txs st e st' evs ->
  forall k, presented k evs <->
            (i <= k < i + length txs /\ reaches_engine e k = true).
Proof.
  induction 1 as [i st | i tx rest st err Hm
                 | i tx rest st msg err g s u v Hm Ha
                 | i tx rest st msg r g s u v e st'' evs Hm Ha HL IH];
    intros k; cbn [length reaches_engine]; unfold presented.
  - split; [intros (tx & gi & go & ok & H); destruct H | intros [H _]; lia].
  - split.
    + intros (tx' & gi & go & ok & H). in_cases.
    + intros [H1 H2]. apply Nat.ltb_lt in H2. lia.
  - split.
    + intros (tx' & gi & go & ok & H). in_cases.
      split; [lia | apply Nat.leb_le; lia].
    + intros [H1 H2]. apply Nat.leb_le in H2.
      assert (k = i) by lia. subst k.
      exists tx, (gp st), g, false. cbn. tauto.
  - pose proof (Loop_exit_range HL) as Hr.
    split.
    + intros (tx' & gi & go & ok & H).
      apply in_app_or in H. destruct H as [H|H].
      * in_cases.
        split; [lia|].
        destruct e; cbn; [reflexivity | apply Nat.ltb_lt; lia | apply Nat.leb_le; lia].
      * assert (Hp : presented k evs) by (exists tx', gi, go, ok; exact H).
        apply IH in Hp. destruct Hp as [Hk Hre]. split; [lia | exact Hre].
    + intros [Hk Hre].
      destruct (Nat.eq_dec k i) as [->|Hne].
      * exists tx, (gp st), g, true. apply in_or_app. left. cbn. tauto.
      * assert (Hp : presented k evs) by (apply IH; split; [lia | exact Hre]).
        destruct Hp as (tx' & gi & go & ok & H).
        exists tx', gi, go, ok. apply in_or_app. right. exact H.
Qed.

(** When the run completes, every transaction had its context bound, in block
    order. *)
Lemma Loop_contexts i txs st e st' evs :
  Loop p block signer i txs st e st' evs ->
  e = Completed ->
  bound_contexts evs = block_contexts i txs.
Proof.
  induction 1 as [i st | i tx rest st err Hm
                 | i tx rest st msg err g s u v Hm Ha
                 | i tx rest st msg r g s u v e st'' evs Hm Ha HL IH];
    intros He; try discriminate.
  - reflexivity.
  - cbn. rewrite (IH He). reflexivity.
Qed.

(** The pool goes from call to call and ends up in the store. *)
Lemma Loop_gas i txs st e st' evs :
  Loop p block signer i txs st e st' evs ->
  chained (gp st) (gas_handoffs evs) /\
  gp st' = pool_after (gp st) (gas_handoffs evs).
Proof.
  induction 1 as [i st | i tx rest st err Hm
                 | i tx rest st msg err g s u v Hm Ha
                 | i tx rest st msg r g s u v e st'' evs Hm Ha HL IH];
    cbn; try (repeat split; reflexivity).
  destruct IH as [Hc Hp]. cbn in Hc, Hp. repeat split; assumption.
Qed.

Lemma calls_at_executor_iteration k tx gin gout ok :
  calls_at (Iter k) (executor_iteration block k tx gin gout ok)
  = map snd (executor_iteration block k tx gin gout ok).
Proof.
  unfold calls_at, executor_iteration. cbn. rewrite Nat.eqb_refl. reflexivity.
Qed.

Lemma calls_at_other_iteration j k tx gin gout ok :
  j <> k -> calls_at (Iter j) (executor_iteration block k tx gin gout ok) = [].
Proof.
  intros Hne. apply calls_at_none. intros c Hin.
  unfold executor_iteration in Hin. in_cases; congruence.
Qed.

(** An executor call sits in the middle of its iteration, whose calls are
    contiguous in the trace and are all the calls made at that site. *)
Lemma Loop_executor_iteration i txs st e st' evs :
  Loop p block signer i txs st e st' evs ->
  forall k tx gin gout ok,
    In (Iter k, CallApplyTransaction tx gin gout ok) evs ->
    (exists pre post,
        evs = pre ++ executor_iteration block k tx gin gout ok ++ post) /\
    calls_at (Iter k) evs = map snd (executor_iteration block k tx gin gout ok).
Proof.
  induction 1 as [i st | i tx rest st err Hm
                 | i tx rest st msg err g s u v Hm Ha
                 | i tx rest st msg r g s u v e st'' evs Hm Ha HL IH];
    intros k tx' gin gout ok Hin.
  - destruct Hin.
  - in_cases.
  - in_cases. split.
    + exists [], []. reflexivity.
    + apply calls_at_executor_iteration.
  - apply in_app_or in Hin. destruct Hin as [Hin|Hin].
    + in_cases. split.
      * exists [], evs. reflexivity.
      * change (calls_at (Iter k)
                  (executor_iteration block k tx' (gp st) gout true ++ evs)
                = map snd (executor_iteration block k tx' (gp st) gout true)).
        rewrite calls_at_app, calls_at_executor_iteration.
        rewrite (@calls_at_none (Iter k) evs); [apply app_nil_r|].
        intros c Hc. destruct (Loop_sites HL _ _ Hc) as [j [Hj [Hr _]]].
        inversion Hj; subst. lia.
    + destruct (Loop_sites HL _ _ Hin) as [j [Hj [Hr _]]].
      inversion Hj; subst j.
      destruct (IH _ _ _ _ _ Hin) as [[pre [post Hevs]] Hat]. split.
      * exists (executor_iteration block i tx (gp st) g true ++ pre), post.
        rewrite Hevs, <- app_assoc. reflexivity.
      * change (calls_at (Iter k)
                  (executor_iteration block i tx (gp st) g true ++ evs)
                = map snd (executor_iteration block k tx' gin gout ok)).
        rewrite calls_at_app, calls_at_other_iteration by lia.
        exact Hat.
Qed.

(** A failed executor call is the last but one call of the run. *)
Lemma Loop_executor_error i txs st e st' evs :
  Loop p block signer i txs st e st' evs ->
  forall k tx gin gout,
    In (Iter k, CallApplyTransaction tx gin gout false) evs ->
    e = ExecFailed k /\
    exists pre,
      evs = pre ++ [(Iter k, CallApplyTransaction tx gin gout false);
                    (Iter k, DelTxFile (Number (Block_Header block)))].
Proof.
  induction 1 as [i st | i tx rest st err Hm
                 | i tx rest st msg err g s u v Hm Ha
                 | i tx rest st msg r g s u v e st'' evs Hm Ha HL IH];
    intros k tx' gin gout Hin.
  - destruct Hin.
  - in_cases.
  - in_cases. split; [reflexivity|].
    eexists [_; _; _]. reflexivity.
  - apply in_app_or in Hin. destruct Hin as [Hin|Hin].
    + in_cases.
    + destruct (IH _ _ _ _ Hin) as [He [pre Hevs]].
      split; [exact He|].
      eexists (_ ++ pre). rewrite Hevs, <- app_assoc. reflexivity.
Qed.

(** A transaction whose sender does not resolve stops the run, unless the run
    stopped before reaching it. *)
Lemma Loop_sender_error i txs st e st' evs :
  Loop p block signer i txs st e st' evs ->
  forall n tx err,
    nth_error txs n = Some tx ->
    TransactionToMessage tx signer (BaseFee (Block_Header block)) = Err err ->
    (e = SenderFailed (i + n) /\
     calls_at (Iter (i + n)) evs
     = [CallTransactionToMessage tx false;
        DelTxFile (Number (Block_Header block))] /\
     exists pre,
       evs = pre ++ [(Iter (i + n), CallTransactionToMessage tx false);
                     (Iter (i + n), DelTxFile (Number (Block_Header block)))]) \/
    (exists k, k < i + n /\ (e = SenderFailed k \/ e = ExecFailed k)).
Proof.
  induction 1 as [i st | i tx rest st err Hm
                 | i tx rest st msg err g s u v Hm Ha
                 | i tx rest st msg r g s u v e st'' evs Hm Ha HL IH];
    intros n tx' err' Hn Hs.
  - destruct n; discriminate.
  - destruct n as [|n]; cbn in Hn.
    + inversion Hn; subst tx'. left. rewrite Nat.add_0_r.
      split; [reflexivity|]. split.
      * unfold calls_at. cbn. rewrite Nat.eqb_refl. reflexivity.
      * exists []. reflexivity.
    + right. exists i. split; [lia | left; reflexivity].
  - destruct n as [|n]; cbn in Hn.
    + inversion Hn; subst tx'. congruence.
    + right. exists i. split; [lia | right; reflexivity].
  - destruct n as [|n]; cbn in Hn.
    + inversion Hn; subst tx'. congruence.
    + destruct (IH _ _ _ Hn Hs) as [[He [Hat [pre Hevs]]] | [k [Hk He]]].
      * left. replace (i + S n) with (S i + n) by lia.
        split; [exact He|]. split.
        -- change (calls_at (Iter (S i + n))
                     (executor_iteration block i tx (gp st) g true ++ evs) = 
                   [CallTransactionToMessage tx' false;
                    DelTxFile (Number (Block_Header block))]).
           rewrite calls_at_app, calls_at_other_iteration by lia.
           exact Hat.
        -- eexists (_ ++ pre). rewrite Hevs, <- app_assoc. reflexivity.
      * right. exists k. split; [lia | exact He].
Qed.

End LoopFacts.

(** ** Around the loop *)

Lemma dao_fork_block_true cfg number :
  dao_fork_block cfg number = true <->
  (DAOForkSupport cfg = true /\ DAOForkBlock cfg = Some number).
Proof.
  unfold dao_fork_block, Cmp. rewrite andb_true_iff.
  destruct (DAOForkBlock cfg) as [b|].
  - destruct (Z.compare_spec b number) as [Heq|Hlt|Hgt]; cbn.
    + subst. tauto.
    + split; [intros [_ H]; discriminate|].
      intros [_ H]. inversion H. lia.
    + split; [intros [_ H]; discriminate|].
      intros [_ H]. inversion H. lia.
  - split; intros [_ H]; discriminate.
Qed.

Lemma prologue_sites p block s c :
  In (s, c) (prologue p block) ->
  s = BeforeLoop /\
  (c = CallApplyDAOHardFork \/ c = InitTxFile (Number (Block_Header block))).
Proof.
  unfold prologue. intros H.
  destruct (dao_fork_block (config p) (Block_Number block));
    destruct (0 <? length (Block_Transactions block))%nat;
    in_cases; auto.
Qed.

Lemma epilogue_sites block e s c :
  In (s, c) (epilogue block e) ->
  s = AfterLoop /\ e = Completed /\
  c = ReNameTxFile (Number (Block_Header block)).
Proof.
  unfold epilogue. intros H.
  destruct e; [|destruct H|destruct H].
  destruct (0 <? length (Block_Transactions block))%nat;
    in_cases; auto.
Qed.

(** The calls made in an iteration are calls of the loop. *)
Lemma In_Iter_run p block e k c evs :
  In (Iter k, c) (prologue p block ++ evs ++ epilogue block e) <->
  In (Iter k, c) evs.
Proof.
  split.
  - intros H. in_cases.
    + apply prologue_sites in H. destruct H as [H _]. discriminate.
    + exact H.
    + apply epilogue_sites in H. destruct H as [H _]. discriminate.
  - intros H. apply in_or_app. right. apply in_or_app. left. exact H.
Qed.

Lemma presented_run p block e k evs :
  presented k (prologue p block ++ evs ++ epilogue block e) <->
  presented k evs.
Proof.
  unfold presented. split; intros (tx & gi & go & ok & H);
    exists tx, gi, go, ok.
  - apply (proj1 (In_Iter_run p block e k _ evs)). exact H.
  - apply (proj2 (In_Iter_run p block e k _ evs)). exact H.
Qed.

Lemma calls_at_Iter_run p block e k evs :
  calls_at (Iter k) (prologue p block ++ evs ++ epilogue block e)
  = calls_at (Iter k) evs.
Proof.
  rewrite !calls_at_app.
  rewrite (@calls_at_none (Iter k) (prologue p block)).
  - rewrite (@calls_at_none (Iter k) (epilogue block e)).
    + apply app_nil_r.
    + intros c H. apply epilogue_sites in H. destruct H as [H _]. discriminate.
  - intros c H. apply prologue_sites in H. destruct H as [H _]. discriminate.
Qed.

Lemma count_root_prologue p block :
  count_calls is_root (prologue p block) = 0.
Proof.
  unfold prologue.
  destruct (dao_fork_block (config p) (Block_Number block));
    destruct (0 <? length (Block_Transactions block))%nat; reflexivity.
Qed.

Lemma count_root_epilogue block e :
  count_calls is_root (epilogue block e) = 0.
Proof.
  unfold epilogue.
  destruct e; try reflexivity.
  destruct (0 <? length (Block_Transactions block))%nat; reflexivity.
Qed.

Lemma run_root_free p block signer st e st' evs :
  Loop p block signer 0 (Block_Transactions block) st e st' evs ->
  count_calls is_root (prologue p block ++ evs ++ epilogue block e) = 0.
Proof.
  intros HL.
  rewrite !count_calls_app, count_root_prologue, count_root_epilogue.
  destruct (Loop_counts HL) as [Hr _]. rewrite Hr. reflexivity.
Qed.

Lemma bound_contexts_run p block e evs :
  bound_contexts (prologue p block ++ evs ++ epilogue block e)
  = bound_contexts evs.
Proof.
  rewrite !bound_contexts_app.
  replace (bound_contexts (prologue p block)) with (@nil (Hash * nat)).
  - replace (bound_contexts (epilogue block e)) with (@nil (Hash * nat)).
    + cbn. apply app_nil_r.
    + unfold epilogue. destruct e; try reflexivity.
      destruct (0 <? length (Block_Transactions block))%nat; reflexivity.
  - unfold prologue.
    destruct (dao_fork_block (config p) (Block_Number block));
      destruct (0 <? length (Block_Transactions block))%nat; reflexivity.
Qed.

Lemma gas_handoffs_run p block e evs :
  gas_handoffs (prologue p block ++ evs ++ epilogue block e)
  = gas_handoffs evs.
Proof.
  rewrite !gas_handoffs_app.
  replace (gas_handoffs (prologue p block)) with (@nil (GasPool * GasPool)).
  - replace (gas_handoffs (epilogue block e)) with (@nil (GasPool * GasPool)).
    + cbn. apply app_nil_r.
    + unfold epilogue. destruct e; try reflexivity.
      destruct (0 <? length (Block_Transactions block))%nat; reflexivity.
  - unfold prologue.
    destruct (dao_fork_block (config p) (Block_Number block));
      destruct (0 <? length (Block_Transactions block))%nat; reflexivity.
Qed.

(** The file hooks of a whole run. *)
Lemma file_hooks_run p block signer st e st' evs :
  Loop p block signer 0 (Block_Transactions block) st e st' evs ->
  file_hooks (prologue p block ++ evs ++ epilogue block e)
  = match Block_Transactions block with
    | [] => []
    | _ :: _ =>
        [InitTxFile (Number (Block_Header block));
         match e with
         | Completed => ReNameTxFile (Number (Block_Header block))
         | _ => DelTxFile (Number (Block_Header block))
         end]
    end.
Proof.
  intros HL. destruct (Loop_counts HL) as [_ [_ Hh]].
  rewrite !file_hooks_app, Hh. unfold prologue, epilogue.
  destruct (Block_Transactions block) as [|tx rest] eqn:Htxs.
  - inversion HL; subst.
    destruct (dao_fork_block (config p) (Block_Number block)); reflexivity.
  - destruct (dao_fork_block (config p) (Block_Number block));
      destruct e; reflexivity.
Qed.

(** A run that leaves early makes no call after the loop. *)
Lemma no_call_after_abort p block e evs c :
  e <> Completed ->
  (forall s c', In (s, c') evs -> exists j, s = Iter j) ->
  ~ In (AfterLoop, c) (prologue p block ++ evs ++ epilogue block e).
Proof.
  intros He Hs H. in_cases.
  - apply prologue_sites in H. destruct H as [H _]. discriminate.
  - destruct (Hs _ _ H) as [j Hj]. discriminate.
  - apply epilogue_sites in H. destruct H as [_ [H _]]. contradiction.
Qed.

(** Replace a run by its prologue, loop and epilogue. *)
Ltac expose_run p block sdb cfg interrupt :=
  let e := fresh "e" in
  let st := fresh "st" in
  let evs := fresh "evs" in
  let HL := fresh "HL" in
  let HP := fresh "HP" in
  destruct (Prefetch_Loop p block sdb cfg interrupt) as (e & st & evs & HL & HP);
  rewrite ?HP; unfold exit_of, store_of, trace_of; cbn [fst snd].

(** ** The claims *)

(** C9.  The cancellation-signal argument does not influence the run: for
    every block, state view and configuration, [Prefetch] leaves by the same
    exit, in the same store, after the same calls (hooks, context bindings,
    executions), whatever the signal is: absent, clear, set, or changing
    while the run goes on. *)
Theorem Prefetch_interrupt_irrelevant
    (p : statePrefetcher) (block : Block) (sdb : StateDB) (cfg : VMConfig)
    (interrupt1 interrupt2 : option AtomicBool) :
  Prefetch p block sdb cfg interrupt1 = Prefetch p block sdb cfg interrupt2.
Proof.
  reflexivity.
Qed.

(** C1, as amended.  [Prefetch] does not consult the cancellation signal: for
    every block, every position [k] and every value of the signal, also one
    set before transaction [k], transaction [k] is presented to the executor
    exactly when [k] is a position of the block and the run did not leave
    earlier by a sender-resolution failure (at some [j <= k]) or an executor
    error (at some [j < k]); the run is the run made without a signal. *)
Theorem Prefetch_presents_whatever_the_signal
    (p : statePrefetcher) (block : Block) (sdb : StateDB) (cfg : VMConfig)
    (interrupt : option AtomicBool) (k : nat) :
  let r := Prefetch p block sdb cfg interrupt in
  (presented k (trace_of r) <->
   (k < length (Block_Transactions block) /\
    reaches_engine (exit_of r) k = true)) /\
  r = Prefetch p block sdb cfg None.
Proof.
  intros r. subst r. split; [|reflexivity].
  expose_run p block sdb cfg interrupt.
  rewrite presented_run, (Loop_presented HL k). cbn.
  split; intros [Hk Hr]; (split; [lia | exact Hr]).
Qed.

(** C3.  The DAO hard-fork mutation is applied exactly once, as the first
    call of the run and to the view the transactions then run on, when DAO
    fork support is enabled, a DAO fork block is configured and the block's
    number equals it; otherwise it is not applied at all. *)
Theorem Prefetch_dao_hard_fork
    (p : statePrefetcher) (block : Block) (sdb : StateDB) (cfg : VMConfig)
    (interrupt : option AtomicBool) :
  let r := Prefetch p block sdb cfg interrupt in
  let triggered :=
    DAOForkSupport (config p) = true /\
    DAOForkBlock (config p) = Some (Block_Number block) in
  (count_calls is_dao (trace_of r) = 1 <-> triggered) /\
  (count_calls is_dao (trace_of r) = 0 <-> ~ triggered) /\
  (triggered ->
   exists rest,
     trace_of r = (BeforeLoop, CallApplyDAOHardFork) :: rest /\
     count_calls is_dao rest = 0) /\
  exists evs,
    Loop p block (run_signer p block) 0 (Block_Transactions block)
      {| statedb :=
           if dao_fork_block (config p) (Block_Number block)
           then ApplyDAOHardFork sdb else sdb;
         gp := GasLimit (Block_Header block);
         usedGas := 0%N;
         vmenv := NewEVM (NewEVMBlockContext (Block_Header block) (bc p))
                    (config p) cfg |}
      (exit_of r) (store_of r) evs.
Proof.
  intros r triggered. subst r.
  assert (Hd : dao_fork_block (config p) (Block_Number block) = true
               <-> triggered) by apply dao_fork_block_true.
  expose_run p block sdb cfg interrupt.
  destruct (Loop_counts HL) as [_ [Hdao _]].
  assert (Hepi : count_calls is_dao (epilogue block e) = 0).
  { unfold epilogue. destruct e; try reflexivity.
    destruct (0 <? length (Block_Transactions block))%nat; reflexivity. }
  assert (Hcount :
            count_calls is_dao (prologue p block ++ evs ++ epilogue block e)
            = if dao_fork_block (config p) (Block_Number block) then 1 else 0).
  { unfold prologue. rewrite !count_calls_app, Hdao, Hepi.
    destruct (dao_fork_block (config p) (Block_Number block));
      destruct (0 <? length (Block_Transactions block))%nat; reflexivity. }
  rewrite Hcount. unfold run_store in HL.
  destruct (dao_fork_block (config p) (Block_Number block)) eqn:Hb.
  - assert (Ht : triggered) by (apply Hd; reflexivity).
    split; [|split; [|split]].
    + split; [intros _; exact Ht | reflexivity].
    + split; [discriminate | intros Hn; contradiction].
    + intros _. unfold prologue. rewrite Hb.
      eexists. split; [reflexivity|].
      rewrite !count_calls_app, Hdao, Hepi.
      destruct (0 <? length (Block_Transactions block))%nat; reflexivity.
    + exists evs. exact HL.
  - assert (Ht : ~ triggered) by (intros H; apply Hd in H; discriminate).
    split; [|split; [|split]].
    + split; [discriminate | intros H; contradiction].
    + split; [intros _; exact Ht | reflexivity].
    + intros H. contradiction.
    + exists evs. exact HL.
Qed.

(** C4.  When the sender of transaction [k] does not resolve, the run stops
    there: in iteration [k] nothing but the failed resolution and the abort
    hook is called (no context is bound, the executor is not run), no call is
    made in a later iteration or after the loop, no root is computed, and the
    run leaves by the failure exit of iteration [k], with the abort hook as
    its last call, unless it left even earlier. *)
Theorem Prefetch_sender_failure_stops
    (p : statePrefetcher) (block : Block) (sdb : StateDB) (cfg : VMConfig)
    (interrupt : option AtomicBool) (k : nat) (tx : Transaction) (err : error) :
  nth_error (Block_Transactions block) k = Some tx ->
  TransactionToMessage tx (run_signer p block) (BaseFee (Block_Header block))
  = Err err ->
  let r := Prefetch p block sdb cfg interrupt in
  let n := Number (Block_Header block) in
  (forall c, In (Iter k, c) (trace_of r) ->
             c = CallTransactionToMessage tx false \/ c = DelTxFile n) /\
  (forall j c, k < j -> ~ In (Iter j, c) (trace_of r)) /\
  (forall c, ~ In (AfterLoop, c) (trace_of r)) /\
  count_calls is_root (trace_of r) = 0 /\
  (exit_of r = SenderFailed k \/
   exists j, j < k /\ (exit_of r = SenderFailed j \/ exit_of r = ExecFailed j)) /\
  (exit_of r = SenderFailed k ->
   exists pre,
     trace_of r = pre ++ [(Iter k, CallTransactionToMessage tx false);
                          (Iter k, DelTxFile n)]).
Proof.
  intros Hk Hs r n. subst r n.
  expose_run p block sdb cfg interrupt.
  pose proof (Loop_sites HL) as Hsites.
  pose proof (Loop_sender_error HL k Hk Hs) as Hstop. cbn [Nat.add] in Hstop.
  assert (Hexit :
    e = SenderFailed k \/
    exists j, j < k /\ (e = SenderFailed j \/ e = ExecFailed j)).
  { destruct Hstop as [[He _] | Hearly]; [left; exact He | right; exact Hearly]. }
  assert (Hne : e <> Completed).
  { destruct Hexit as [-> | [j [_ [-> | ->]]]]; discriminate. }
  split; [|split; [|split; [|split; [|split]]]].
  - intros c Hin. apply In_Iter_run in Hin.
    destruct Hstop as [[_ [Hat _]] | [j [Hj He]]].
    + apply calls_at_In in Hin. rewrite Hat in Hin. in_cases; auto.
    + destruct (Hsites _ _ Hin) as [j' [Hj' [_ Hle]]].
      inversion Hj'; subst j'. destruct He as [-> | ->]; lia.
  - intros j c Hlt Hin. apply In_Iter_run in Hin.
    destruct (Hsites _ _ Hin) as [j' [Hj' [_ Hle]]].
    inversion Hj'; subst j'.
    destruct Hexit as [-> | [i [Hi [-> | ->]]]]; lia.
  - intros c. apply no_call_after_abort; [exact Hne|].
    intros s c' Hin. destruct (Hsites _ _ Hin) as [j [Hj _]].
    exists j. exact Hj.
  - exact (run_root_free HL).
  - exact Hexit.
  - intros He. destruct Hstop as [[_ [_ [pre Hevs]]] | [j [Hj Hej]]].
    + exists (prologue p block ++ pre). subst e evs. cbn [epilogue].
      rewrite app_nil_r, app_assoc. reflexivity.
    + subst e. destruct Hej as [Hej | Hej]; inversion Hej; lia.
Qed.

(** C5.  When the executor returns an error for transaction [k], the run
    leaves by the failure exit of iteration [k]: the failed call is followed
    by the abort hook and nothing else, no later transaction is presented to
    the executor, nothing of the completion path is called, and the file
    hooks of the run are the begin hook and the abort hook. *)
Theorem Prefetch_executor_failure_stops
    (p : statePrefetcher) (block : Block) (sdb : StateDB) (cfg : VMConfig)
    (interrupt : option AtomicBool) (k : nat) (tx : Transaction)
    (gin gout : GasPool) :
  let r := Prefetch p block sdb cfg interrupt in
  let n := Number (Block_Header block) in
  In (Iter k, CallApplyTransaction tx gin gout false) (trace_of r) ->
  exit_of r = ExecFailed k /\
  (exists pre,
     trace_of r = pre ++ [(Iter k, CallApplyTransaction tx gin gout false);
                          (Iter k, DelTxFile n)]) /\
  (forall j, k < j -> ~ presented j (trace_of r)) /\
  (forall c, ~ In (AfterLoop, c) (trace_of r)) /\
  file_hooks (trace_of r) = [InitTxFile n; DelTxFile n].
Proof.
  intros r n. subst r n.
  expose_run p block sdb cfg interrupt.
  intros Hin. apply In_Iter_run in Hin.
  destruct (Loop_executor_error HL _ _ _ _ Hin) as [He [pre Hevs]].
  split; [exact He|]. split; [|split; [|split]].
  - exists (prologue p block ++ pre). rewrite Hevs, He. cbn [epilogue].
    rewrite app_nil_r, app_assoc. reflexivity.
  - intros j Hlt Hp. apply presented_run in Hp.
    apply (Loop_presented HL) in Hp. destruct Hp as [_ Hr].
    rewrite He in Hr. cbn in Hr. apply Nat.leb_le in Hr. lia.
  - intros c. apply no_call_after_abort; [rewrite He; discriminate|].
    intros s c' Hc. destruct (Loop_sites HL _ _ Hc) as [j [Hj _]].
    exists j. exact Hj.
  - rewrite (file_hooks_run HL), He.
    destruct (Block_Transactions block) as [|tx0 rest]; [|reflexivity].
    inversion HL; congruence.
Qed.

(** C6.  When the run is not aborted, the contexts bound on the state view
    are those of the block's transactions in block order: the i-th binding
    carries the hash of the i-th transaction and the index [i], none is
    missing and none is out of place. *)
Theorem Prefetch_contexts_in_block_order
    (p : statePrefetcher) (block : Block) (sdb : StateDB) (cfg : VMConfig)
    (interrupt : option AtomicBool) :
  let r := Prefetch p block sdb cfg interrupt in
  exit_of r = Completed ->
  bound_contexts (trace_of r) = block_contexts 0 (Block_Transactions block).
Proof.
  intros r. subst r.
  expose_run p block sdb cfg interrupt.
  intros He. rewrite bound_contexts_run.
  exact (Loop_contexts HL He).
Qed.

(** C7.  On every exit the file hooks are paired: a block without
    transactions calls none; otherwise the begin hook [InitTxFile] is called
    once, before everything else of the three, and is followed by exactly one
    closing hook for the same block number, [ReNameTxFile] when the run
    completes and [DelTxFile] when it leaves by a failure. *)
Theorem Prefetch_file_hooks_paired
    (p : statePrefetcher) (block : Block) (sdb : StateDB) (cfg : VMConfig)
    (interrupt : option AtomicBool) :
  let r := Prefetch p block sdb cfg interrupt in
  let n := Number (Block_Header block) in
  file_hooks (trace_of r)
  = match Block_Transactions block with
    | [] => []
    | _ :: _ =>
        [InitTxFile n;
         match exit_of r with
         | Completed => ReNameTxFile n
         | _ => DelTxFile n
         end]
    end.
Proof.
  intros r n. subst r n.
  expose_run p block sdb cfg interrupt.
  exact (file_hooks_run HL).
Qed.

(** C8.  One gas pool per run: it starts as a fresh pool filled with the
    header's gas limit, the first executor call receives it, every later call
    receives what the call before it left, and what the last call left is the
    pool of the store at the end of the run. *)
Theorem Prefetch_single_gas_pool
    (p : statePrefetcher) (block : Block) (sdb : StateDB) (cfg : VMConfig)
    (interrupt : option AtomicBool) :
  let r := Prefetch p block sdb cfg interrupt in
  let limit := GasLimit (Block_Header block) in
  AddGas new_GasPool (Block_GasLimit block) = limit /\
  chained limit (gas_handoffs (trace_of r)) /\
  gp (store_of r) = pool_after limit (gas_handoffs (trace_of r)).
Proof.
  intros r limit. subst r limit.
  expose_run p block sdb cfg interrupt.
  rewrite gas_handoffs_run.
  split; [reflexivity|].
  exact (Loop_gas HL).
Qed.

(** C10.  Around an executor call the hash of the transaction is recorded:
    in the iteration of a call that succeeds [WriteHash] is called exactly
    twice, right before and right after the call; in the iteration of a call
    that fails it is called exactly once, right before the call, and the
    abort hook follows.  Each time with the block number and the hash of that
    transaction. *)
Theorem Prefetch_records_hash_around_execution
    (p : statePrefetcher) (block : Block) (sdb : StateDB) (cfg : VMConfig)
    (interrupt : option AtomicBool) (k : nat) (tx : Transaction)
    (gin gout : GasPool) (ok : bool) :
  let r := Prefetch p block sdb cfg interrupt in
  let n := Number (Block_Header block) in
  In (Iter k, CallApplyTransaction tx gin gout ok) (trace_of r) ->
  (exists pre post,
     trace_of r
     = pre ++
       [(Iter k, WriteHash n (Tx_Hash tx));
        (Iter k, CallApplyTransaction tx gin gout ok);
        (Iter k, if ok then WriteHash n (Tx_Hash tx) else DelTxFile n)] ++
       post) /\
  filter is_WriteHash (calls_at (Iter k) (trace_of r))
  = repeat (WriteHash n (Tx_Hash tx)) (if ok then 2 else 1).
Proof.
  intros r n. subst r n.
  expose_run p block sdb cfg interrupt.
  intros Hin. apply In_Iter_run in Hin.
  destruct (Loop_executor_iteration HL _ _ _ _ _ Hin) as [[pre [post Hevs]] Hat].
  split.
  - exists (prologue p block ++ pre ++
            [(Iter k, CallTransactionToMessage tx true);
             (Iter k, CallSetTxContext (Tx_Hash tx) k)]),
           (post ++ epilogue block e).
    rewrite Hevs. unfold executor_iteration.
    repeat rewrite <- app_assoc. reflexivity.
  - rewrite calls_at_Iter_run, Hat. destruct ok; reflexivity.
Qed.

(** * Further properties of the run *)

(** ** The loop over a concatenation, and over another block body *)

Lemma range_Transactions_app p block signer txs1 txs2 :
  forall i st,
    range_Transactions p block signer i (txs1 ++ txs2) st
    = let '(e1, st1, evs1) := range_Transactions p block signer i txs1 st in
      match e1 with
      | Completed =>
          let '(e2, st2, evs2) :=
            range_Transactions p block signer (i + length txs1) txs2 st1 in
          (e2, st2, evs1 ++ evs2)
      | _ => (e1, st1, evs1)
      end.
Proof.
  induction txs1 as [|tx rest IH]; intros i st.
  - cbn. rewrite Nat.add_0_r.
    destruct (range_Transactions p block signer i txs2 st) as [[e2 st2] evs2].
    reflexivity.
  - cbn [app range_Transactions length].
    destruct (TransactionToMessage tx signer (BaseFee (Block_Header block)))
      as [msg|err]; [|reflexivity].
    destruct (applyTransaction msg (config p) (gp st)
                (SetTxContext (statedb st) (Tx_Hash tx) i) (Block_Number block)
                (Block_Hash block) tx (usedGas st) (vmenv st))
      as [[rcpt|err] [[[g s] u] v]]; [|reflexivity].
    rewrite IH.
    destruct (range_Transactions p block signer (S i) rest
                {| statedb := s; gp := g; usedGas := u; vmenv := v |})
      as [[e1 st1] evs1].
    replace (i + S (length rest)) with (S i + length rest) by lia.
    destruct e1; try reflexivity.
    destruct (range_Transactions p block signer (S i + length rest) txs2 st1)
      as [[e2 st2] evs2].
    reflexivity.
Qed.

(** The loop reads the header of the block it is given, not its body. *)
Lemma range_Transactions_header p block signer body txs :
  forall i st,
    range_Transactions p (with_transactions block body) signer i txs st
    = range_Transactions p block signer i txs st.
Proof.
  induction txs as [|tx rest IH]; intros i st; [reflexivity|].
  cbn [range_Transactions].
  change (Block_Header (with_transactions block body)) with (Block_Header block).
  change (Block_Number (with_transactions block body)) with (Block_Number block).
  change (Block_Hash (with_transactions block body)) with (Block_Hash block).
  destruct (TransactionToMessage tx signer (BaseFee (Block_Header block)))
    as [msg|err]; [|reflexivity].
  destruct (applyTransaction msg (config p) (gp st)
              (SetTxContext (statedb st) (Tx_Hash tx) i) (Block_Number block)
              (Block_Hash block) tx (usedGas st) (vmenv st))
    as [[rcpt|err] [[[g s] u] v]]; [|reflexivity].
  rewrite IH. reflexivity.
Qed.

(** ** What the loop hands to its collaborators *)

Section LoopReach.

Variables (p : statePrefetcher) (block : Block) (signer : Signer).

(** One more iteration in front moves the counts by one. *)
Lemma Loop_reach_step i rest st e st' evs :
  Loop p block signer (S i) rest st e st' evs ->
  executed_upto e (i + S (length rest)) - i
  = S (executed_upto e (S i + length rest) - S i) /\
  bound_upto e (i + S (length rest)) - i
  = S (bound_upto e (S i + length rest) - S i) /\
  resolved_upto e (i + S (length rest)) - i
  = S (resolved_upto e (S i + length rest) - S i).
Proof.
  intros HL. pose proof (Loop_exit_range HL) as Hr.
  destruct e; cbn [executed_upto bound_upto resolved_upto] in *; lia.
Qed.

Lemma Loop_executor_inputs i txs st e st' evs :
  Loop p block signer i txs st e st' evs ->
  executor_inputs evs
  = firstn (bound_upto e (i + length txs) - i) txs /\
  bound_contexts evs
  = block_contexts i (firstn (bound_upto e (i + length txs) - i) txs).
Proof.
  induction 1 as [i st | i tx rest st err Hm
                 | i tx rest st msg err g s u v Hm Ha
                 | i tx rest st msg r g s u v e st'' evs Hm Ha HL IH];
    cbn [length bound_upto].
  - rewrite Nat.add_0_r, Nat.sub_diag. split; reflexivity.
  - rewrite Nat.sub_diag. split; reflexivity.
  - replace (S i - i) with 1 by lia. split; reflexivity.
  - destruct (Loop_reach_step HL) as [_ [Hb _]]. rewrite Hb.
    destruct IH as [IH1 IH2]. cbn. rewrite IH1, IH2. split; reflexivity.
Qed.

Lemma Loop_resolution_attempts i txs st e st' evs :
  Loop p block signer i txs st e st' evs ->
  resolution_attempts evs
  = firstn (resolved_upto e (i + length txs) - i) txs.
Proof.
  induction 1 as [i st | i tx rest st err Hm
                 | i tx rest st msg err g s u v Hm Ha
                 | i tx rest st msg r g s u v e st'' evs Hm Ha HL IH];
    cbn [length resolved_upto].
  - rewrite Nat.add_0_r, Nat.sub_diag. reflexivity.
  - replace (S i - i) with 1 by lia. reflexivity.
  - replace (S i - i) with 1 by lia. reflexivity.
  - destruct (Loop_reach_step HL) as [_ [_ Hr]]. rewrite Hr.
    cbn. rewrite IH. reflexivity.
Qed.

Lemma Loop_recorded_hashes i txs st e st' evs :
  Loop p block signer i txs st e st' evs ->
  recorded_hashes evs
  = twice_hashes (firstn (executed_upto e (i + length txs) - i) txs) ++
    map Tx_Hash
      (skipn (executed_upto e (i + length txs) - i)
         (firstn (bound_upto e (i + length txs) - i) txs)).
Proof.
  induction 1 as [i st | i tx rest st err Hm
                 | i tx rest st msg err g s u v Hm Ha
                 | i tx rest st msg r g s u v e st'' evs Hm Ha HL IH];
    cbn [length executed_upto bound_upto].
  - rewrite Nat.add_0_r, Nat.sub_diag. reflexivity.
  - rewrite Nat.sub_diag. reflexivity.
  - rewrite Nat.sub_diag. replace (S i - i) with 1 by lia. reflexivity.
  - destruct (Loop_reach_step HL) as [He [Hb _]]. rewrite He, Hb.
    cbn. rewrite IH. reflexivity.
Qed.

(** The senders of the transactions that got a context resolve; the sender
    of the transaction of a [SenderFailed] exit does not. *)
Lemma Loop_resolved i txs st e st' evs :
  Loop p block signer i txs st e st' evs ->
  forall n tx,
    nth_error txs n = Some tx ->
    (n < bound_upto e (i + length txs) - i ->
     exists msg,
       TransactionToMessage tx signer (BaseFee (Block_Header block)) = Ok msg) /\
    (e = SenderFailed (i + n) ->
     exists err,
       TransactionToMessage tx signer (BaseFee (Block_Header block)) = Err err).
Proof.
  induction 1 as [i st | i tx rest st err Hm
                 | i tx rest st msg err g s u v Hm Ha
                 | i tx rest st msg r g s u v e st'' evs Hm Ha HL IH];
    intros n tx' Hn; cbn [length bound_upto].
  - destruct n; discriminate.
  - rewrite Nat.sub_diag. split; [lia|].
    intros He. inversion He. assert (n = 0) by lia. subst n.
    cbn in Hn. inversion Hn; subst tx'. exists err. exact Hm.
  - replace (S i - i) with 1 by lia. split; [|discriminate].
    intros Hlt. assert (n = 0) by lia. subst n.
    cbn in Hn. inversion Hn; subst tx'. exists msg. exact Hm.
  - destruct (Loop_reach_step HL) as [_ [Hb _]]. rewrite Hb.
    pose proof (Loop_exit_range HL) as Hr.
    destruct n as [|n]; cbn in Hn.
    + inversion Hn; subst tx'. split.
      * intros _. exists msg. exact Hm.
      * intros He. subst e. lia.
    + destruct (IH _ _ Hn) as [IH1 IH2]. split.
      * intros Hlt. apply IH1. lia.
      * intros He. apply IH2. rewrite He. f_equal. lia.
Qed.

(** The exit tells which call failed, if any. *)
Lemma Loop_failure i txs st e st' evs :
  Loop p block signer i txs st e st' evs ->
  match e with
  | Completed => forall s c, In (s, c) evs -> is_failure c = false
  | SenderFailed k =>
      exists tx, nth_error txs (k - i) = Some tx /\
                 In (Iter k, CallTransactionToMessage tx false) evs
  | ExecFailed k =>
      exists tx gin gout,
        nth_error txs (k - i) = Some tx /\
        In (Iter k, CallApplyTransaction tx gin gout false) evs
  end.
Proof.
  induction 1 as [i st | i tx rest st err Hm
                 | i tx rest st msg err g s u v Hm Ha
                 | i tx rest st msg r g s u v e st'' evs Hm Ha HL IH].
  - intros s c H. destruct H.
  - exists tx. rewrite Nat.sub_diag. split; [reflexivity | cbn; tauto].
  - exists tx, (gp st), g. rewrite Nat.sub_diag.
    split; [reflexivity | cbn; tauto].
  - pose proof (Loop_exit_range HL) as Hr. destruct e.
    + intros s0 c0 Hin. apply in_app_or in Hin. destruct Hin as [Hin|Hin].
      * in_cases; reflexivity.
      * exact (IH _ _ Hin).
    + destruct IH as [tx' [Hn Hin]]. exists tx'.
      replace (i0 - i) with (S (i0 - S i)) by lia.
      split; [exact Hn | apply in_or_app; right; exact Hin].
    + destruct IH as [tx' [gi [go [Hn Hin]]]]. exists tx', gi, go.
      replace (i0 - i) with (S (i0 - S i)) by lia.
      split; [exact Hn | apply in_or_app; right; exact Hin].
Qed.

(** Every call of the transaction-file hooks carries the number of the
    block. *)
Lemma Loop_file_number i txs st e st' evs :
  Loop p block signer i txs st e st' evs ->
  forall s c n, In (s, c) evs -> file_number c = Some n ->
                n = Number (Block_Header block).
Proof.
  induction 1 as [i st | i tx rest st err Hm
                 | i tx rest st msg err g s u v Hm Ha
                 | i tx rest st msg r g s u v e st'' evs Hm Ha HL IH];
    intros s0 c0 n Hin Hn.
  - destruct Hin.
  - in_cases; cbn in Hn; congruence.
  - in_cases; cbn in Hn; congruence.
  - apply in_app_or in Hin. destruct Hin as [Hin|Hin].
    + in_cases; cbn in Hn; congruence.
    + exact (IH _ _ _ Hin Hn).
Qed.

(** A loop that leaves early ends with the abort hook, its only file hook. *)
Lemma Loop_abort_last i txs st e st' evs :
  Loop p block signer i txs st e st' evs ->
  e <> Completed ->
  exists mid k,
    evs = mid ++ [(Iter k, DelTxFile (Number (Block_Header block)))] /\
    file_hooks mid = [] /\
    (e = SenderFailed k \/ e = ExecFailed k).
Proof.
  induction 1 as [i st | i tx rest st err Hm
                 | i tx rest st msg err g s u v Hm Ha
                 | i tx rest st msg r g s u v e st'' evs Hm Ha HL IH];
    intros He.
  - contradiction.
  - eexists [_], i. repeat split. left. reflexivity.
  - eexists [_; _; _; _], i. repeat split. right. reflexivity.
  - destruct (IH He) as [mid [k [Hevs [Hmid Hk]]]].
    eexists (_ ++ mid), k. rewrite Hevs, <- app_assoc.
    split; [reflexivity|]. split; [|exact Hk].
    rewrite file_hooks_app, Hmid. reflexivity.
Qed.

(** The root computations on the view: when binding a context computes none,
    a successful executor call computes [d] and a failing one none, the loop
    leaves the view with [d] more for each transaction it executed. *)
Lemma Loop_roots (roots : StateDB -> nat) (d : nat) i txs st e st' evs :
  Loop p block signer i txs st e st' evs ->
  (forall s h j, roots (SetTxContext s h j) = roots s) ->
  (forall msg g s tx u v rcpt g' s' u' v',
     applyTransaction msg (config p) g s (Block_Number block)
       (Block_Hash block) tx u v = (Ok rcpt, (g', s', u', v')) ->
     roots s' = roots s + d) ->
  (forall msg g s tx u v err g' s' u' v',
     applyTransaction msg (config p) g s (Block_Number block)
       (Block_Hash block) tx u v = (Err err, (g', s', u', v')) ->
     roots s' = roots s) ->
  roots (statedb st')
  = roots (statedb st) + d * (executed_upto e (i + length txs) - i).
Proof.
  intros HL Hctx Hok Herr.
  induction HL as [i st | i tx rest st err Hm
                  | i tx rest st msg err g s u v Hm Ha
                  | i tx rest st msg r g s u v e st'' evs Hm Ha HL IH];
    cbn [length executed_upto statedb].
  - rewrite Nat.add_0_r, Nat.sub_diag. lia.
  - rewrite Nat.sub_diag. lia.
  - rewrite Nat.sub_diag, (Herr _ _ _ _ _ _ _ _ _ _ _ Ha), Hctx. lia.
  - destruct (Loop_reach_step HL) as [He _]. rewrite He, IH.
    cbn [statedb]. rewrite (Hok _ _ _ _ _ _ _ _ _ _ _ Ha), Hctx.
    rewrite Nat.mul_succ_r. lia.
Qed.

(** An invariant of the store that makes every iteration succeed carries the
    loop to its end. *)
Lemma Loop_invariant (Inv : nat -> Store -> Prop) i txs st e st' evs :
  Loop p block signer i txs st e st' evs ->
  Inv i st ->
  (forall n tx st0,
     nth_error txs n = Some tx -> Inv (i + n) st0 ->
     exists msg rcpt g s u v,
       TransactionToMessage tx signer (BaseFee (Block_Header block)) = Ok msg /\
       applyTransaction msg (config p) (gp st0)
         (SetTxContext (statedb st0) (Tx_Hash tx) (i + n)) (Block_Number block)
         (Block_Hash block) tx (usedGas st0) (vmenv st0)
       = (Ok rcpt, (g, s, u, v)) /\
       Inv (S (i + n))
         {| statedb := s; gp := g; usedGas := u; vmenv := v |}) ->
  e = Completed /\ Inv (i + length txs) st'.
Proof.
  induction 1 as [i st | i tx rest st err Hm
                 | i tx rest st msg err g s u v Hm Ha
                 | i tx rest st msg r g s u v e st'' evs Hm Ha HL IH];
    intros Hinv Hstep.
  - cbn. rewrite Nat.add_0_r. split; [reflexivity | exact Hinv].
  - exfalso. specialize (Hstep 0 tx st eq_refl).
    rewrite Nat.add_0_r in Hstep.
    destruct (Hstep Hinv) as (m & _ & _ & _ & _ & _ & Hres & _). congruence.
  - exfalso. specialize (Hstep 0 tx st eq_refl).
    rewrite Nat.add_0_r in Hstep.
    destruct (Hstep Hinv) as (m & r & g0 & s0 & u0 & v0 & Hres & Happ & _).
    assert (m = msg) by congruence. subst m. congruence.
  - pose proof (Hstep 0 tx st eq_refl) as H0.
    rewrite Nat.add_0_r in H0.
    destruct (H0 Hinv) as (m & r0 & g0 & s0 & u0 & v0 & Hres & Happ & Hnext).
    assert (m = msg) by congruence. subst m.
    rewrite Ha in Happ. inversion Happ; subst r0 g0 s0 u0 v0.
    destruct (IH Hnext) as [He Hend].
    + intros n tx' st0 Hn Hi.
      replace (S i + n) with (i + S n) in * by lia.
      exact (Hstep (S n) tx' st0 Hn Hi).
    + split; [exact He|].
      cbn [length]. replace (i + S (length rest)) with (S i + length rest) by lia.
      exact Hend.
Qed.

End LoopReach.

(** ** The whole run *)

Lemma executor_inputs_app (a b : list Event) :
  executor_inputs (a ++ b) = executor_inputs a ++ executor_inputs b.
Proof.
  induction a as [|[s c] a IH]; cbn; [reflexivity|].
  destruct c; cbn; rewrite IH; reflexivity.
Qed.

Lemma resolution_attempts_app (a b : list Event) :
  resolution_attempts (a ++ b) = resolution_attempts a ++ resolution_attempts b.
Proof.
  induction a as [|[s c] a IH]; cbn; [reflexivity|].
  destruct c; cbn; rewrite IH; reflexivity.
Qed.

Lemma recorded_hashes_app (a b : list Event) :
  recorded_hashes (a ++ b) = recorded_hashes a ++ recorded_hashes b.
Proof.
  induction a as [|[s c] a IH]; cbn; [reflexivity|].
  destruct c; cbn; rewrite IH; reflexivity.
Qed.

(** Around the loop no transaction is resolved or executed and no hash is
    recorded. *)
Lemma around_loop_quiet p block e :
  executor_inputs (prologue p block) = [] /\
  executor_inputs (epilogue block e) = [] /\
  resolution_attempts (prologue p block) = [] /\
  resolution_attempts (epilogue block e) = [] /\
  recorded_hashes (prologue p block) = [] /\
  recorded_hashes (epilogue block e) = [].
Proof.
  unfold prologue, epilogue.
  destruct (dao_fork_block (config p) (Block_Number block));
    destruct (0 <? length (Block_Transactions block))%nat;
    destruct e; repeat split; reflexivity.
Qed.

Lemma Exit_Completed_dec (e : Exit) : {e = Completed} + {e <> Completed}.
Proof.
  destruct e; [left; reflexivity | right; discriminate | right; discriminate].
Qed.

Lemma In_run_cases p block e evs s c :
  In (s, c) (prologue p block ++ evs ++ epilogue block e) ->
  (s = BeforeLoop /\
   (c = CallApplyDAOHardFork \/ c = InitTxFile (Number (Block_Header block)))) \/
  In (s, c) evs \/
  (s = AfterLoop /\ e = Completed /\
   c = ReNameTxFile (Number (Block_Header block))).
Proof.
  intros H. in_cases.
  - left. exact (prologue_sites _ _ _ _ H).
  - right. left. exact H.
  - right. right. exact (epilogue_sites _ _ _ _ H).
Qed.

(** X1.  A block without transactions: the run completes without touching
    the transaction file or the executor; its only possible call is the DAO
    mutation, and the store it leaves holds the (possibly mutated) view, a
    pool filled with the block's gas limit and no gas used. *)
Theorem Prefetch_empty_block
    (p : statePrefetcher) (block : Block) (sdb : StateDB) (cfg : VMConfig)
    (interrupt : option AtomicBool) :
  Block_Transactions block = [] ->
  let r := Prefetch p block sdb cfg interrupt in
  let dao := dao_fork_block (config p) (Block_Number block) in
  exit_of r = Completed /\
  trace_of r = (if dao then [(BeforeLoop, CallApplyDAOHardFork)] else []) /\
  statedb (store_of r) = (if dao then ApplyDAOHardFork sdb else sdb) /\
  gp (store_of r) = GasLimit (Block_Header block) /\
  usedGas (store_of r) = 0%N.
Proof.
  intros Htxs r dao. subst r dao.
  expose_run p block sdb cfg interrupt.
  rewrite Htxs in HL. inversion HL; subst.
  unfold prologue, epilogue, run_store. rewrite Htxs.
  cbn [length Nat.ltb Nat.leb statedb gp usedGas].
  destruct (dao_fork_block (config p) (Block_Number block));
    repeat split; reflexivity.
Qed.

(** X2.  On every exit the executor receives a prefix of the block's
    transactions, each once and in block order, and the contexts bound on the
    view are those of that prefix: all transactions when the run completes,
    those before [k] when the sender of [k] does not resolve, those up to and
    including [k] when the execution of [k] fails. *)
Theorem Prefetch_executes_a_prefix
    (p : statePrefetcher) (block : Block) (sdb : StateDB) (cfg : VMConfig)
    (interrupt : option AtomicBool) :
  let r := Prefetch p block sdb cfg interrupt in
  let txs := Block_Transactions block in
  let reach := bound_upto (exit_of r) (length txs) in
  executor_inputs (trace_of r) = firstn reach txs /\
  bound_contexts (trace_of r) = block_contexts 0 (firstn reach txs).
Proof.
  intros r txs reach. subst r txs reach.
  expose_run p block sdb cfg interrupt.
  destruct (around_loop_quiet p block e) as (Hp & He & _).
  rewrite !executor_inputs_app, Hp, He, app_nil_r, bound_contexts_run.
  destruct (Loop_executor_inputs HL) as [H1 H2].
  cbn [Nat.add app] in *. rewrite Nat.sub_0_r in H1, H2.
  split; assumption.
Qed.

(** X3.  Sender resolution is attempted for a prefix of the block's
    transactions, each once and in block order: all of them when the run
    completes, those up to and including [k] when the run leaves in
    iteration [k]. *)
Theorem Prefetch_resolves_a_prefix
    (p : statePrefetcher) (block : Block) (sdb : StateDB) (cfg : VMConfig)
    (interrupt : option AtomicBool) :
  let r := Prefetch p block sdb cfg interrupt in
  let txs := Block_Transactions block in
  resolution_attempts (trace_of r)
  = firstn (resolved_upto (exit_of r) (length txs)) txs.
Proof.
  intros r txs. subst r txs.
  expose_run p block sdb cfg interrupt.
  destruct (around_loop_quiet p block e) as (_ & _ & Hp & He & _).
  rewrite !resolution_attempts_app, Hp, He, app_nil_r.
  pose proof (Loop_resolution_attempts HL) as H.
  cbn [Nat.add app] in *. rewrite Nat.sub_0_r in H. exact H.
Qed.

(** X4.  What is recorded in the transaction file: the hash of every
    transaction that executed, twice each and in block order, followed by the
    hash of the transaction whose execution failed, once, if the run left
    that way.  A completed run records every hash of the block twice. *)
Theorem Prefetch_recorded_hashes
    (p : statePrefetcher) (block : Block) (sdb : StateDB) (cfg : VMConfig)
    (interrupt : option AtomicBool) :
  let r := Prefetch p block sdb cfg interrupt in
  let txs := Block_Transactions block in
  let done := executed_upto (exit_of r) (length txs) in
  let reach := bound_upto (exit_of r) (length txs) in
  recorded_hashes (trace_of r)
  = twice_hashes (firstn done txs) ++
    map Tx_Hash (skipn done (firstn reach txs)) /\
  (exit_of r = Completed -> recorded_hashes (trace_of r) = twice_hashes txs).
Proof.
  intros r txs done reach. subst r txs done reach.
  expose_run p block sdb cfg interrupt.
  destruct (around_loop_quiet p block e) as (_ & _ & _ & _ & Hp & He).
  rewrite !recorded_hashes_app, Hp, He, app_nil_r.
  pose proof (Loop_recorded_hashes HL) as H.
  cbn [Nat.add app] in *. rewrite !Nat.sub_0_r in H.
  split; [exact H|].
  intros Hc. rewrite H, Hc. cbn [executed_upto bound_upto].
  rewrite firstn_all, skipn_all. cbn. apply app_nil_r.
Qed.

(** X5.  A run that leaves by the sender failure of iteration [k] does so
    for a reason: [k] is a position of the block, the sender of that
    transaction does not resolve, the failed resolution is in the trace, and
    the sender of every earlier transaction resolved. *)
Theorem Prefetch_sender_failure_genuine
    (p : statePrefetcher) (block : Block) (sdb : StateDB) (cfg : VMConfig)
    (interrupt : option AtomicBool) (k : nat) :
  let r := Prefetch p block sdb cfg interrupt in
  let resolve := fun tx =>
    TransactionToMessage tx (run_signer p block) (BaseFee (Block_Header block)) in
  exit_of r = SenderFailed k ->
  exists tx err,
    nth_error (Block_Transactions block) k = Some tx /\
    resolve tx = Err err /\
    In (Iter k, CallTransactionToMessage tx false) (trace_of r) /\
    forall j tx', j < k -> nth_error (Block_Transactions block) j = Some tx' ->
                  exists msg, resolve tx' = Ok msg.
Proof.
  intros r resolve. subst r resolve.
  expose_run p block sdb cfg interrupt.
  intros He. subst e.
  pose proof (Loop_failure HL) as Hf. cbn in Hf.
  destruct Hf as [tx [Hn Hin]]. rewrite Nat.sub_0_r in Hn.
  destruct (Loop_resolved HL k Hn) as [_ Herr].
  destruct (Herr eq_refl) as [err Hres].
  exists tx, err. split; [exact Hn|]. split; [exact Hres|]. split.
  - apply In_Iter_run. exact Hin.
  - intros j tx' Hlt Hj.
    destruct (Loop_resolved HL j Hj) as [Hok _].
    apply Hok. cbn. lia.
Qed.

(** X6.  A run that leaves by the execution failure of iteration [k] does so
    for a reason: [k] is a position of the block, the executor was called on
    that transaction and returned an error, and the senders of that and of
    every earlier transaction resolved. *)
Theorem Prefetch_executor_failure_genuine
    (p : statePrefetcher) (block : Block) (sdb : StateDB) (cfg : VMConfig)
    (interrupt : option AtomicBool) (k : nat) :
  let r := Prefetch p block sdb cfg interrupt in
  let resolve := fun tx =>
    TransactionToMessage tx (run_signer p block) (BaseFee (Block_Header block)) in
  exit_of r = ExecFailed k ->
  (exists tx gin gout,
     nth_error (Block_Transactions block) k = Some tx /\
     In (Iter k, CallApplyTransaction tx gin gout false) (trace_of r)) /\
  forall j tx', j <= k -> nth_error (Block_Transactions block) j = Some tx' ->
                exists msg, resolve tx' = Ok msg.
Proof.
  intros r resolve. subst r resolve.
  expose_run p block sdb cfg interrupt.
  intros He. subst e.
  pose proof (Loop_failure HL) as Hf. cbn in Hf.
  destruct Hf as [tx [gi [go [Hn Hin]]]]. rewrite Nat.sub_0_r in Hn.
  split.
  - exists tx, gi, go. split; [exact Hn|]. apply In_Iter_run. exact Hin.
  - intros j tx' Hle Hj.
    destruct (Loop_resolved HL j Hj) as [Hok _].
    apply Hok. cbn. lia.
Qed.

(** X7.  The run completes exactly when none of its fallible calls returned
    an error; and when it completes, the sender of every transaction of the
    block resolved. *)
Theorem Prefetch_completes_iff_no_failure
    (p : statePrefetcher) (block : Block) (sdb : StateDB) (cfg : VMConfig)
    (interrupt : option AtomicBool) :
  let r := Prefetch p block sdb cfg interrupt in
  (exit_of r = Completed <->
   forall s c, In (s, c) (trace_of r) -> is_failure c = false) /\
  (exit_of r = Completed ->
   forall tx, In tx (Block_Transactions block) ->
   exists msg,
     TransactionToMessage tx (run_signer p block) (BaseFee (Block_Header block))
     = Ok msg).
Proof.
  intros r. subst r.
  expose_run p block sdb cfg interrupt.
  pose proof (Loop_failure HL) as Hf.
  split; [split|].
  - intros He. subst e. intros s c Hin.
    apply In_run_cases in Hin.
    destruct Hin as [[_ [-> | ->]] | [Hin | [_ [_ ->]]]]; try reflexivity.
    exact (Hf _ _ Hin).
  - intros Hnone. destruct e; [reflexivity | exfalso | exfalso].
    + destruct Hf as [tx [_ Hin]].
      assert (H : is_failure (CallTransactionToMessage tx false) = false).
      { apply (Hnone (Iter i)). apply In_Iter_run. exact Hin. }
      discriminate.
    + destruct Hf as [tx [gi [go [_ Hin]]]].
      assert (H : is_failure (CallApplyTransaction tx gi go false) = false).
      { apply (Hnone (Iter i)). apply In_Iter_run. exact Hin. }
      discriminate.
  - intros He tx Hin. subst e.
    apply In_nth_error in Hin. destruct Hin as [n Hn].
    destruct (Loop_resolved HL n Hn) as [Hok _].
    apply Hok. cbn. rewrite Nat.sub_0_r.
    apply nth_error_Some. congruence.
Qed.

(** X9.  Transactions behind the one that stops the run have no influence:
    when the run over a block leaves by a failure, the run over the same
    header with further transactions appended to the block leaves by the same
    exit, in the same store, after the same calls. *)
Theorem Prefetch_ignores_transactions_after_failure
    (p : statePrefetcher) (block : Block) (sdb : StateDB) (cfg : VMConfig)
    (interrupt : option AtomicBool) (extra : list Transaction) :
  exit_of (Prefetch p block sdb cfg interrupt) <> Completed ->
  Prefetch p (with_transactions block (Block_Transactions block ++ extra))
    sdb cfg interrupt
  = Prefetch p block sdb cfg interrupt.
Proof.
  unfold Prefetch, exit_of.
  change (Block_Header (with_transactions block (Block_Transactions block ++ extra)))
    with (Block_Header block).
  change (Block_Number (with_transactions block (Block_Transactions block ++ extra)))
    with (Block_Number block).
  change (Block_GasLimit (with_transactions block (Block_Transactions block ++ extra)))
    with (Block_GasLimit block).
  change (Block_Transactions
            (with_transactions block (Block_Transactions block ++ extra)))
    with (Block_Transactions block ++ extra).
  rewrite range_Transactions_header, range_Transactions_app.
  destruct (Block_Transactions block) as [|tx rest] eqn:Htxs.
  - cbn. intros H. contradiction.
  - destruct (range_Transactions p block
                (MakeSigner (config p) (Number (Block_Header block))
                   (Time (Block_Header block))) 0 (tx :: rest)
                {| statedb :=
                     if dao_fork_block (config p) (Block_Number block)
                     then ApplyDAOHardFork sdb else sdb;
                   gp := AddGas new_GasPool (Block_GasLimit block);
                   usedGas := 0%N;
                   vmenv := NewEVM (NewEVMBlockContext (Block_Header block) (bc p))
                              (config p) cfg |})
      as [[e st] evs].
    cbn [fst]. intros He.
    destruct e; [contradiction | reflexivity | reflexivity].
Qed.

(** X11.  Every call of the transaction-file hooks in a run ([InitTxFile],
    [WriteHash], [DelTxFile], [ReNameTxFile]) carries the number of the
    block's header. *)
Theorem Prefetch_file_calls_carry_block_number
    (p : statePrefetcher) (block : Block) (sdb : StateDB) (cfg : VMConfig)
    (interrupt : option AtomicBool) :
  Forall (fun ev =>
            match file_number (snd ev) with
            | Some n => n = Number (Block_Header block)
            | None => True
            end)
    (trace_of (Prefetch p block sdb cfg interrupt)).
Proof.
  expose_run p block sdb cfg interrupt.
  apply Forall_forall. intros [s c] Hin. cbn [snd].
  destruct (file_number c) as [n|] eqn:Hn; [|exact I].
  apply In_run_cases in Hin.
  destruct Hin as [[_ [-> | ->]] | [Hin | [_ [_ ->]]]]; cbn in Hn;
    try congruence.
  exact (Loop_file_number HL _ _ Hin Hn).
Qed.

(** X12.  For a block with transactions the file hooks bracket the run:
    [InitTxFile] comes before every call of the loop (only the DAO mutation
    may precede it), the closing hook is the very last call of the run, and
    no other begin or closing hook is called in between.  The closing hook is
    [ReNameTxFile], after the loop, when the run completes, and [DelTxFile],
    in the failing iteration, otherwise. *)
Theorem Prefetch_file_hooks_bracket_the_run
    (p : statePrefetcher) (block : Block) (sdb : StateDB) (cfg : VMConfig)
    (interrupt : option AtomicBool) :
  Block_Transactions block <> [] ->
  let r := Prefetch p block sdb cfg interrupt in
  let n := Number (Block_Header block) in
  exists mid,
    trace_of r
    = (if dao_fork_block (config p) (Block_Number block)
       then [(BeforeLoop, CallApplyDAOHardFork)] else []) ++
      [(BeforeLoop, InitTxFile n)] ++ mid ++
      [match exit_of r with
       | Completed => (AfterLoop, ReNameTxFile n)
       | SenderFailed k | ExecFailed k => (Iter k, DelTxFile n)
       end] /\
    file_hooks mid = [] /\
    forall s c, In (s, c) mid -> exists j, s = Iter j.
Proof.
  intros Hne r n. subst r n.
  expose_run p block sdb cfg interrupt.
  pose proof (Loop_sites HL) as Hsites.
  unfold prologue, epilogue.
  destruct (Block_Transactions block) as [|tx rest] eqn:Htxs; [contradiction|].
  cbn [length Nat.ltb Nat.leb].
  destruct (Exit_Completed_dec e) as [He | He].
  - subst e. exists evs. split; [|split].
    + rewrite <- !app_assoc. reflexivity.
    + destruct (Loop_counts HL) as [_ [_ Hh]]. exact Hh.
    + intros s c Hin. destruct (Hsites _ _ Hin) as [j [Hj _]].
      exists j. exact Hj.
  - destruct (Loop_abort_last HL He) as [mid [k [Hevs [Hmid Hk]]]].
    exists mid. split; [|split].
    + rewrite Hevs. destruct Hk as [-> | ->];
        rewrite app_nil_r, <- !app_assoc; reflexivity.
    + exact Hmid.
    + intros s c Hin.
      destruct (Hsites s c) as [j [Hj _]].
      * rewrite Hevs. apply in_or_app. left. exact Hin.
      * exists j. exact Hj.
Qed.

(** C2, as amended.  [Prefetch] forces no root computation of its own, so
    the roots computed on the view during a run are those the executor
    computes.  With an executor that computes the intermediate root when the
    rules it is handed predate Byzantium and none otherwise (and none when it
    fails), as the block processor's [applyTransaction] does: before
    Byzantium the view leaves the run with exactly one root computation for
    every successfully executed transaction; from Byzantium on no state root
    is computed at all, no final one either, whether the run completes or
    aborts.  After the loop the only call, under every fork, is the end hook
    [ReNameTxFile] of a completed run over a non-empty block. *)
Theorem Prefetch_roots_are_the_executors
    (p : statePrefetcher) (block : Block) (sdb : StateDB) (cfg : VMConfig)
    (interrupt : option AtomicBool) (roots : StateDB -> nat) :
  (forall s h i, roots (SetTxContext s h i) = roots s) ->
  (forall msg c g s number bh tx u v rcpt g' s' u' v',
     applyTransaction msg c g s number bh tx u v
     = (Ok rcpt, (g', s', u', v')) ->
     roots s' = roots s + (if IsByzantium c number then 0 else 1)) ->
  (forall msg c g s number bh tx u v err g' s' u' v',
     applyTransaction msg c g s number bh tx u v
     = (Err err, (g', s', u', v')) ->
     roots s' = roots s) ->
  let r := Prefetch p block sdb cfg interrupt in
  let txs := Block_Transactions block in
  let n := Number (Block_Header block) in
  calls_at AfterLoop (trace_of r)
  = match exit_of r, txs with
    | Completed, _ :: _ => [ReNameTxFile n]
    | _, _ => []
    end /\
  roots (statedb (store_of r))
  = roots (if dao_fork_block (config p) (Block_Number block)
           then ApplyDAOHardFork sdb else sdb) +
    (if IsByzantium (config p) (Block_Number block)
     then 0 else executed_upto (exit_of r) (length txs)).
Proof.
  intros Hctx Hok Herr r txs n. subst r txs n.
  expose_run p block sdb cfg interrupt.
  split.
  - rewrite !calls_at_app.
    rewrite (@calls_at_none AfterLoop (prologue p block)).
    + rewrite (@calls_at_none AfterLoop evs).
      * unfold epilogue.
        destruct e; destruct (Block_Transactions block); reflexivity.
      * intros c Hin. destruct (Loop_sites HL _ _ Hin) as [j [Hj _]].
        discriminate.
    + intros c Hin. apply prologue_sites in Hin. destruct Hin as [Hs _].
      discriminate.
  - rewrite (Loop_roots roots
               (if IsByzantium (config p) (Block_Number block) then 0 else 1)
               HL Hctx).
    + cbn [Nat.add]. rewrite Nat.sub_0_r. unfold run_store. cbn [statedb].
      destruct (IsByzantium (config p) (Block_Number block)); lia.
    + intros msg g s tx u v rcpt g' s' u' v' Ha. exact (Hok _ _ _ _ _ _ _ _ _ _ _ _ _ _ Ha).
    + intros msg g s tx u v err g' s' u' v' Ha. exact (Herr _ _ _ _ _ _ _ _ _ _ _ _ _ _ Ha).
Qed.

(** X8.  Progress under an invariant.  Let [Inv i st] hold of the store the
    run starts the loop in, for [i = 0], and let it make every iteration
    succeed: at each position [i] of the block and in each store with
    [Inv i], the sender resolves, the executor accepts the transaction and
    leaves a store with [Inv (S i)].  Then the run completes, every
    transaction of the block went through the executor in block order, and
    the final store satisfies the invariant at the length of the block. *)
Theorem Prefetch_completes_under_invariant
    (p : statePrefetcher) (block : Block) (sdb : StateDB) (cfg : VMConfig)
    (interrupt : option AtomicBool) (Inv : nat -> Store -> Prop) :
  Inv 0 (run_store p block sdb cfg) ->
  (forall i tx st,
     nth_error (Block_Transactions block) i = Some tx -> Inv i st ->
     exists msg rcpt g s u v,
       TransactionToMessage tx (run_signer p block)
         (BaseFee (Block_Header block)) = Ok msg /\
       applyTransaction msg (config p) (gp st)
         (SetTxContext (statedb st) (Tx_Hash tx) i) (Block_Number block)
         (Block_Hash block) tx (usedGas st) (vmenv st)
       = (Ok rcpt, (g, s, u, v)) /\
       Inv (S i) {| statedb := s; gp := g; usedGas := u; vmenv := v |}) ->
  let r := Prefetch p block sdb cfg interrupt in
  exit_of r = Completed /\
  executor_inputs (trace_of r) = Block_Transactions block /\
  Inv (length (Block_Transactions block)) (store_of r).
Proof.
  intros Hinit Hstep r. subst r.
  expose_run p block sdb cfg interrupt.
  destruct (Loop_invariant Inv HL Hinit) as [He Hend].
  { intros n tx st0 Hn Hi. cbn [Nat.add] in *. exact (Hstep n tx st0 Hn Hi). }
  split; [exact He|]. split; [|exact Hend].
  destruct (around_loop_quiet p block e) as (Hp & Hq & _).
  rewrite !executor_inputs_app, Hp, Hq, app_nil_r.
  destruct (Loop_executor_inputs HL) as [H1 _].
  rewrite H1, He. cbn. rewrite Nat.sub_0_r. apply firstn_all.
Qed.

End Properties.

(** * The sample chain: runs, witnesses and counterexamples *)

Import Sample.

(** Membership of an event in an explicit trace. *)
Ltac find_event := cbn; repeat first [left; reflexivity | right].

(** Three transfers: the run completes, the file is renamed. *)
Example run_block_ok :
  exit_of (Prefetch prefetcher block_ok view0 tt None) = Completed /\
  file_hooks (trace_of (Prefetch prefetcher block_ok view0 tt None))
  = [InitTxFile 4370001; ReNameTxFile 4370001] /\
  gp (store_of (Prefetch prefetcher block_ok view0 tt None)) = 37000%N.
Proof.
  repeat split.
Qed.

(** The second sender does not resolve: the first transaction is executed,
    the second is neither bound nor executed, the third is not touched. *)
Example run_block_forged :
  exit_of (Prefetch prefetcher block_forged view0 tt None) = SenderFailed 1 /\
  bound_contexts (trace_of (Prefetch prefetcher block_forged view0 tt None))
  = [(11%Z, 0)] /\
  calls_at (Iter 2) (trace_of (Prefetch prefetcher block_forged view0 tt None))
  = [].
Proof.
  repeat split.
Qed.

(** An empty block at the DAO fork block: the mutation and nothing else. *)
Example run_block_dao :
  Prefetch prefetcher block_dao view0 tt None
  = (Completed,
     {| statedb := {| thash := 0; txIndex := 0; dao_applied := true |};
        gp := 100000%N; usedGas := 0%N; vmenv := header_at 1920000 |},
     [(BeforeLoop, CallApplyDAOHardFork)]).
Proof.
  reflexivity.
Qed.

(** C1, counterexample.  The signal is set before the run begins and all
    three transfers of the block still reach the executor, the first one
    included. *)
Lemma cancellation_not_honoured :
  ~ cancellation_honoured prefetcher block_ok view0 tt cancelled.
Proof.
  intros H. apply (H 0 (ex_intro _ (fun _ => true)
                          (conj eq_refl (fun j _ => eq_refl))) 0 (le_n 0)).
  exists (transfer 11), 100000%N, 79000%N, true. find_event.
Qed.

(** C2, counterexample.  Byzantium blocks whose run completes, one with three
    transfers and one without transactions: no root is computed where the
    policy asks for one. *)
Lemma root_warming_policy_violated :
  ~ root_warming_policy prefetcher block_ok view0 tt None /\
  ~ root_warming_policy prefetcher block_empty view0 tt None.
Proof.
  split; intros [_ H]; specialize (H eq_refl); vm_compute in H; discriminate.
Qed.

(** C4, witness: the forged second transaction of [block_forged]. *)
Lemma Prefetch_sender_failure_stops_witness :
  nth_error (Block_Transactions block_forged) 1 = Some (forged 12) /\
  TransactionToMessage (forged 12) (run_signer prefetcher block_forged)
    (BaseFee (Block_Header block_forged)) = Err tt /\
  (forall j c, 1 < j ->
     ~ In (Iter j, c) (trace_of (Prefetch prefetcher block_forged view0 tt None))) /\
  count_calls is_root (trace_of (Prefetch prefetcher block_forged view0 tt None))
  = 0.
Proof.
  split; [reflexivity|]. split; [reflexivity|].
  destruct (@Prefetch_sender_failure_stops chain prefetcher block_forged view0
              tt None 1 (forged 12) tt eq_refl eq_refl)
    as (_ & Hlater & _ & Hroot & _).
  split; [exact Hlater | exact Hroot].
Defined.

(** C5, witness: the second transaction of [block_greedy] asks for more gas
    than the first one left. *)
Lemma Prefetch_executor_failure_stops_witness :
  In (Iter 1, CallApplyTransaction (greedy 12) 79000%N 79000%N false)
    (trace_of (Prefetch prefetcher block_greedy view0 tt None)) /\
  exit_of (Prefetch prefetcher block_greedy view0 tt None) = ExecFailed 1 /\
  (forall j, 1 < j ->
     ~ presented j (trace_of (Prefetch prefetcher block_greedy view0 tt None))).
Proof.
  assert (Hin : In (Iter 1, CallApplyTransaction (greedy 12) 79000%N 79000%N false)
                  (trace_of (Prefetch prefetcher block_greedy view0 tt None)))
    by find_event.
  split; [exact Hin|].
  destruct (@Prefetch_executor_failure_stops chain prefetcher block_greedy view0
              tt None 1 (greedy 12) 79000%N 79000%N Hin)
    as (Hexit & _ & Hlater & _).
  split; [exact Hexit | exact Hlater].
Defined.

(** C6, witness: the three transfers of [block_ok], with the signal set. *)
Lemma Prefetch_contexts_in_block_order_witness :
  exit_of (Prefetch prefetcher block_ok view0 tt cancelled) = Completed /\
  bound_contexts (trace_of (Prefetch prefetcher block_ok view0 tt cancelled))
  = [(11%Z, 0); (12%Z, 1); (13%Z, 2)].
Proof.
  split; [reflexivity|].
  exact (@Prefetch_contexts_in_block_order chain prefetcher block_ok view0 tt
           cancelled eq_refl).
Defined.

(** C10, witness: the second transfer of [block_ok]. *)
Lemma Prefetch_records_hash_around_execution_witness :
  In (Iter 1, CallApplyTransaction (transfer 12) 79000%N 58000%N true)
    (trace_of (Prefetch prefetcher block_ok view0 tt None)) /\
  filter is_WriteHash
    (calls_at (Iter 1) (trace_of (Prefetch prefetcher block_ok view0 tt None)))
  = [WriteHash 4370001 12%Z; WriteHash 4370001 12%Z].
Proof.
  assert (Hin : In (Iter 1, CallApplyTransaction (transfer 12) 79000%N 58000%N true)
                  (trace_of (Prefetch prefetcher block_ok view0 tt None)))
    by find_event.
  split; [exact Hin|].
  destruct (@Prefetch_records_hash_around_execution chain prefetcher block_ok
              view0 tt None 1 (transfer 12) 79000%N 58000%N true Hin)
    as (_ & Hcount).
  exact Hcount.
Defined.

(** * Witnesses of the further properties *)

(** X1, witness: the empty block at the DAO fork block. *)
Lemma Prefetch_empty_block_witness :
  Block_Transactions block_dao = [] /\
  trace_of (Prefetch prefetcher block_dao view0 tt None)
  = [(BeforeLoop, CallApplyDAOHardFork)] /\
  gp (store_of (Prefetch prefetcher block_dao view0 tt None)) = 100000%N.
Proof.
  split; [reflexivity|].
  destruct (@Prefetch_empty_block chain prefetcher block_dao view0 tt None
              eq_refl) as (_ & Htrace & _ & Hgp & _).
  split; [exact Htrace | exact Hgp].
Defined.

(** X5, witness: the forged second transaction of [block_forged]. *)
Lemma Prefetch_sender_failure_genuine_witness :
  exit_of (Prefetch prefetcher block_forged view0 tt None) = SenderFailed 1 /\
  exists tx err,
    nth_error (Block_Transactions block_forged) 1 = Some tx /\
    TransactionToMessage tx (run_signer prefetcher block_forged)
      (BaseFee (Block_Header block_forged)) = Err err.
Proof.
  split; [reflexivity|].
  destruct (@Prefetch_sender_failure_genuine chain prefetcher block_forged
              view0 tt None 1 eq_refl) as (tx & err & Hn & Hres & _).
  exists tx, err. split; [exact Hn | exact Hres].
Defined.

(** X6, witness: the greedy second transaction of [block_greedy]. *)
Lemma Prefetch_executor_failure_genuine_witness :
  exit_of (Prefetch prefetcher block_greedy view0 tt None) = ExecFailed 1 /\
  exists tx gin gout,
    nth_error (Block_Transactions block_greedy) 1 = Some tx /\
    In (Iter 1, CallApplyTransaction tx gin gout false)
      (trace_of (Prefetch prefetcher block_greedy view0 tt None)).
Proof.
  split; [reflexivity|].
  destruct (@Prefetch_executor_failure_genuine chain prefetcher block_greedy
              view0 tt None 1 eq_refl) as (Hcall & _).
  exact Hcall.
Defined.

(** X9, witness: a transfer appended behind the forged transaction. *)
Lemma Prefetch_ignores_transactions_after_failure_witness :
  exit_of (Prefetch prefetcher block_forged view0 tt None) <> Completed /\
  Prefetch prefetcher
    (with_transactions block_forged
       (Block_Transactions block_forged ++ [transfer 14])) view0 tt None
  = Prefetch prefetcher block_forged view0 tt None.
Proof.
  assert (Hne : exit_of (Prefetch prefetcher block_forged view0 tt None)
                <> Completed) by (vm_compute; discriminate).
  split; [exact Hne|].
  exact (@Prefetch_ignores_transactions_after_failure chain prefetcher
           block_forged view0 tt None [transfer 14] Hne).
Defined.

(** X12, witness: the three transfers of [block_ok]. *)
Lemma Prefetch_file_hooks_bracket_the_run_witness :
  Block_Transactions block_ok <> [] /\
  exists mid,
    trace_of (Prefetch prefetcher block_ok view0 tt None)
    = [(BeforeLoop, InitTxFile 4370001)] ++ mid ++
      [(AfterLoop, ReNameTxFile 4370001)] /\
    file_hooks mid = [].
Proof.
  assert (Hne : Block_Transactions block_ok <> []) by discriminate.
  split; [exact Hne|].
  destruct (@Prefetch_file_hooks_bracket_the_run chain prefetcher block_ok
              view0 tt None Hne) as (mid & Htrace & Hmid & _).
  exists mid. split; [exact Htrace | exact Hmid].
Defined.

Import SampleRoots.

(** C2, witness: on the chain whose view counts its roots.  The frontier
    block executes two transfers and fails on the third transaction: two
    roots.  The Byzantium block completes: no root, no final one either. *)
Lemma Prefetch_roots_are_the_executors_witness :
  (forall s h i, root_count (@SetTxContext rooting_chain s h i) = root_count s) /\
  (forall msg c g s number bh tx u v rcpt g' s' u' v',
     apply_tx_rooting msg c g s number bh tx u v
     = (Ok rcpt, (g', s', u', v')) ->
     root_count s' = root_count s + (if is_byzantium c number then 0 else 1)) /\
  (forall msg c g s number bh tx u v err g' s' u' v',
     apply_tx_rooting msg c g s number bh tx u v
     = (Err err, (g', s', u', v')) ->
     root_count s' = root_count s) /\
  exit_of (Prefetch rooting_prefetcher rooting_block_frontier root_view0 tt None)
  = ExecFailed 2 /\
  root_count
    (statedb (store_of
       (Prefetch rooting_prefetcher rooting_block_frontier root_view0 tt None)))
  = 2 /\
  exit_of (Prefetch rooting_prefetcher rooting_block_byzantium root_view0 tt None)
  = Completed /\
  root_count
    (statedb (store_of
       (Prefetch rooting_prefetcher rooting_block_byzantium root_view0 tt None)))
  = 0.
Proof.
  assert (Hctx : forall s h i,
            root_count (@SetTxContext rooting_chain s h i) = root_count s)
    by reflexivity.
  assert (Hok : forall msg c g s number bh tx u v rcpt g' s' u' v',
            apply_tx_rooting msg c g s number bh tx u v
            = (Ok rcpt, (g', s', u', v')) ->
            root_count s'
            = root_count s + (if is_byzantium c number then 0 else 1)).
  { intros msg c g s number bh tx u v rcpt g' s' u' v' H.
    unfold apply_tx_rooting in H.
    destruct (tx_gas msg <=? g)%N; [|discriminate].
    inversion H; subst.
    destruct (is_byzantium c number); simpl; lia. }
  assert (Herr : forall msg c g s number bh tx u v err g' s' u' v',
            apply_tx_rooting msg c g s number bh tx u v
            = (Err err, (g', s', u', v')) ->
            root_count s' = root_count s).
  { intros msg c g s number bh tx u v err g' s' u' v' H.
    unfold apply_tx_rooting in H.
    destruct (tx_gas msg <=? g)%N; [discriminate|].
    inversion H; subst. reflexivity. }
  split; [exact Hctx|]. split; [exact Hok|]. split; [exact Herr|].
  split; [reflexivity|]. split.
  - exact (proj2 (@Prefetch_roots_are_the_executors rooting_chain
                    rooting_prefetcher rooting_block_frontier root_view0 tt
                    None root_count Hctx Hok Herr)).
  - split; [reflexivity|].
    exact (proj2 (@Prefetch_roots_are_the_executors rooting_chain
                    rooting_prefetcher rooting_block_byzantium root_view0 tt
                    None root_count Hctx Hok Herr)).
Defined.

(** X8, witness: the three transfers of [block_ok]; before transaction [i]
    the pool holds the gas limit less 21000 for each earlier transfer. *)
Lemma Prefetch_completes_under_invariant_witness :
  let Inv := fun (i : nat) (st : Store) =>
    gp st = (100000 - 21000 * N.of_nat i)%N in
  Inv 0 (run_store prefetcher block_ok view0 tt) /\
  (forall i tx st,
     nth_error (Block_Transactions block_ok) i = Some tx -> Inv i st ->
     exists msg rcpt g s u v,
       TransactionToMessage tx (run_signer prefetcher block_ok)
         (BaseFee (Block_Header block_ok)) = Ok msg /\
       applyTransaction msg (config prefetcher) (gp st)
         (SetTxContext (statedb st) (Tx_Hash tx) i) (Block_Number block_ok)
         (Block_Hash block_ok) tx (usedGas st) (vmenv st)
       = (Ok rcpt, (g, s, u, v)) /\
       Inv (S i) {| statedb := s; gp := g; usedGas := u; vmenv := v |}) /\
  exit_of (Prefetch prefetcher block_ok view0 tt None) = Completed /\
  executor_inputs (trace_of (Prefetch prefetcher block_ok view0 tt None))
  = [transfer 11; transfer 12; transfer 13] /\
  gp (store_of (Prefetch prefetcher block_ok view0 tt None)) = 37000%N.
Proof.
  intros Inv.
  assert (Hinit : Inv 0 (run_store prefetcher block_ok view0 tt))
    by reflexivity.
  assert (Hstep : forall i tx st,
     nth_error (Block_Transactions block_ok) i = Some tx -> Inv i st ->
     exists msg rcpt g s u v,
       TransactionToMessage tx (run_signer prefetcher block_ok)
         (BaseFee (Block_Header block_ok)) = Ok msg /\
       applyTransaction msg (config prefetcher) (gp st)
         (SetTxContext (statedb st) (Tx_Hash tx) i) (Block_Number block_ok)
         (Block_Hash block_ok) tx (usedGas st) (vmenv st)
       = (Ok rcpt, (g, s, u, v)) /\
       Inv (S i) {| statedb := s; gp := g; usedGas := u; vmenv := v |}).
  { intros i tx [sd g u v] Hn Hi. unfold Inv in Hi. simpl in Hi. subst g.
    destruct i as [|[|[|i]]]; simpl in Hn;
      [inversion Hn; subst tx | inversion Hn; subst tx
      | inversion Hn; subst tx | destruct i; discriminate];
      do 6 eexists; (split; [reflexivity|]); split; reflexivity. }
  split; [exact Hinit|]. split; [exact Hstep|].
  exact (@Prefetch_completes_under_invariant chain prefetcher block_ok view0
           tt None Inv Hinit Hstep).
Defined.
